(** * data-sanitize.py: CSV normalisation, embedded and verified

    A shallow embedding of [data-sanitize.py] (a Python 2 script).  Byte
    strings ([str]) are lists of bytes, text ([unicode]) is a list of
    code points, exceptions are values of an error monad, and the two
    output channels are threaded through the row loop as explicit
    state.  The interpreter's library functions the script calls (the
    UTF-8 codec, [int], [timedelta], [strptime], the zone conversion,
    [str] of a float, [str.format]) are modelled next to the
    function that calls them. *)

From Stdlib Require Import Strings.String Strings.Byte.
From Stdlib Require Import List ZArith NArith Lia Bool Arith.
From Stdlib Require DecimalPos DecimalN.
Import ListNotations.

Open Scope N_scope.

(** ** Byte strings and text *)

Definition bytes := list byte.

(** A [unicode] object: the sequence of its code points (a wide
    build, one element per code point). *)
Definition ustring := list N.

Definition bytes_of (s : string) : bytes := list_byte_of_string s.

(** A text literal whose characters are all ASCII. *)
Definition u (s : string) : ustring := map Byte.to_N (list_byte_of_string s).

Definition chr (s : string) : N :=
  match list_byte_of_string s with
  | b :: _ => Byte.to_N b
  | [] => 0
  end.

Definition ustring_eqb (a b : ustring) : bool :=
  if list_eq_dec N.eq_dec a b then true else false.

(** ** Exceptions and the error monad *)

Inductive value_error :=
| NoMatch (data : ustring)            (* time data does not match format *)
| UnconvertedData (rest : ustring)    (* unconverted data remains *)
| FieldOutOfRange                     (* day is out of range for month, second must be in 0..59 *)
| InvalidLiteral (lit : ustring).     (* invalid literal for int() with base 10 *)

Inductive exn :=
| IndexError
| ValueError (cause : value_error)
| OverflowError
| UnicodeDecodeError (start stop : nat)
| UnicodeEncodeError.

(** [except ValueError] also catches the Unicode errors, which are
    subclasses of it. *)
Definition is_ValueError (e : exn) : bool :=
  match e with
  | ValueError _ | UnicodeDecodeError _ _ | UnicodeEncodeError => true
  | IndexError | OverflowError => false
  end.

Inductive result (A : Type) :=
| Ok (a : A)
| Raise (e : exn).
Arguments Ok {A} a.
Arguments Raise {A} e.

Definition rbind {A B} (m : result A) (f : A -> result B) : result B :=
  match m with
  | Ok a => f a
  | Raise e => Raise e
  end.

Notation "x <- m ;; k" := (rbind m (fun x => k))
  (at level 61, m at next level, right associativity).

(** [l[i]] for a non-negative index. *)
Definition index {A} (l : list A) (i : nat) : result A :=
  match nth_error l i with
  | Some x => Ok x
  | None => Raise IndexError
  end.

(** ** The UTF-8 codec ([str.decode('utf8')], strict error handling) *)

Module Utf8.

(** Sequence length announced by a lead byte; zero marks an illegal
    lead byte. *)
Definition code_length (c : N) : nat :=
  if c <? 0x80 then 1%nat
  else if c <? 0xC2 then 0%nat
  else if c <? 0xE0 then 2%nat
  else if c <? 0xF0 then 3%nat
  else if c <? 0xF5 then 4%nat
  else 0%nat.

Definition is_cont (b : byte) : bool :=
  N.land (Byte.to_N b) 0xC0 =? 0x80.

(** Number of continuation bytes at the head of [s]. *)
Fixpoint cont_run (s : bytes) : nat :=
  match s with
  | b :: s' => if is_cont b then S (cont_run s') else 0%nat
  | [] => 0%nat
  end.

Inductive decoded :=
| Decoded (t : ustring)
| DecodeError (start stop : nat).

Definition push (c : N) (d : decoded) : decoded :=
  match d with
  | Decoded t => Decoded (c :: t)
  | DecodeError a b => DecodeError a b
  end.

(** The decoder loop; [pos] is the offset of [s] in the whole input
    and the error carries the span [start, stop) it rejects. *)
Fixpoint decode_from (pos : nat) (s : bytes) : decoded :=
  match s with
  | [] => Decoded []
  | b0 :: s1 =>
    let c0 := Byte.to_N b0 in
    match code_length c0 with
    | 1%nat => push c0 (decode_from (pos + 1) s1)
    | 2%nat =>
      match s1 with
      | b1 :: s2 =>
        if is_cont b1 then
          push (N.shiftl (N.land c0 0x1F) 6 + N.land (Byte.to_N b1) 0x3F)
               (decode_from (pos + 2) s2)
        else DecodeError pos (pos + 1)
      | _ => DecodeError pos (pos + 1 + cont_run s1)
      end
    | 3%nat =>
      match s1 with
      | b1 :: b2 :: s3 =>
        if negb (is_cont b1) || negb (is_cont b2)
           || ((c0 =? 0xE0) && (Byte.to_N b1 <? 0xA0))
        then DecodeError pos (if is_cont b1 then pos + 2 else pos + 1)
        else
          push (N.shiftl (N.land c0 0x0F) 12
                + N.shiftl (N.land (Byte.to_N b1) 0x3F) 6
                + N.land (Byte.to_N b2) 0x3F)
               (decode_from (pos + 3) s3)
      | _ => DecodeError pos (pos + 1 + cont_run s1)
      end
    | 4%nat =>
      match s1 with
      | b1 :: b2 :: b3 :: s4 =>
        if negb (is_cont b1) || negb (is_cont b2) || negb (is_cont b3)
           || ((c0 =? 0xF0) && (Byte.to_N b1 <? 0x90))
           || ((c0 =? 0xF4) && (0x8F <? Byte.to_N b1))
        then DecodeError pos
               (if is_cont b1
                then if is_cont b2 then pos + 3 else pos + 2
                else pos + 1)
        else
          push (N.shiftl (N.land c0 0x07) 18
                + N.shiftl (N.land (Byte.to_N b1) 0x3F) 12
                + N.shiftl (N.land (Byte.to_N b2) 0x3F) 6
                + N.land (Byte.to_N b3) 0x3F)
               (decode_from (pos + 4) s4)
      | _ => DecodeError pos (pos + 1 + cont_run s1)
      end
    | _ => DecodeError pos (pos + 1)
    end
  end.

Definition decode (s : bytes) : result ustring :=
  match decode_from 0 s with
  | Decoded t => Ok t
  | DecodeError a b => Raise (UnicodeDecodeError a b)
  end.

Definition byte_of (n : N) : byte :=
  match Byte.of_N n with
  | Some b => b
  | None => x00
  end.

Definition trail (n : N) : byte := byte_of (N.lor 0x80 (N.land n 0x3F)).

Definition encode_cp (c : N) : bytes :=
  if c <? 0x80 then [byte_of c]
  else if c <? 0x800 then [byte_of (N.lor 0xC0 (N.shiftr c 6)); trail c]
  else if c <? 0x10000 then
    [byte_of (N.lor 0xE0 (N.shiftr c 12)); trail (N.shiftr c 6); trail c]
  else
    [byte_of (N.lor 0xF0 (N.shiftr c 18)); trail (N.shiftr c 12);
     trail (N.shiftr c 6); trail c].

(** [unicode.encode('utf8')]: a high surrogate directly followed by
    a low one is written as the single code point the pair stands
    for. *)
Fixpoint encode (t : ustring) : bytes :=
  match t with
  | [] => []
  | c :: t' =>
    match t' with
    | c2 :: t'' =>
      if (0xD800 <=? c) && (c <=? 0xDBFF) && (0xDC00 <=? c2) && (c2 <=? 0xDFFF)
      then encode_cp (N.lor (N.shiftl (c - 0xD800) 10) (c2 - 0xDC00) + 0x10000)
           ++ encode t''
      else encode_cp c ++ encode t'
    | [] => encode_cp c
    end
  end.

End Utf8.

(** ** [sanitize_unicode] *)

Definition REPLACEMENT : N := 0xFFFD.

(** The body of the loop over the elements of a row. *)
Definition sanitize_element (csv_element : bytes) : result ustring :=
  match Utf8.decode csv_element with
  | Ok u_csv_element => Ok u_csv_element
  | Raise (UnicodeDecodeError start stop) =>
    head <- Utf8.decode (firstn start csv_element) ;;
    tail <- Utf8.decode (skipn stop csv_element) ;;
    Ok (head ++ [REPLACEMENT] ++ tail)
  | Raise e => Raise e
  end.

Fixpoint sanitize_unicode (csv_row : list bytes) : result (list ustring) :=
  match csv_row with
  | [] => Ok []
  | csv_element :: rest =>
    clean_element <- sanitize_element csv_element ;;
    sanitized_rest <- sanitize_unicode rest ;;
    Ok (clean_element :: sanitized_rest)
  end.

(** ** Text helpers: [split], [int], decimal rendering *)

(** [s.split(sep)] for a one-character separator: never empty. *)
Fixpoint split (sep : N) (s : ustring) : list ustring :=
  match s with
  | [] => [[]]
  | c :: s' =>
    if c =? sep then [] :: split sep s'
    else match split sep s' with
         | w :: ws => (c :: w) :: ws
         | [] => [[c]]
         end
  end.

Definition is_digit (c : N) : bool := (48 <=? c) && (c <=? 57).

(** White space as [\s] and [isspace] see it in ASCII. *)
Definition is_space (c : N) : bool := (c =? 32) || ((9 <=? c) && (c <=? 13)).

Fixpoint lstrip (s : ustring) : ustring :=
  match s with
  | c :: s' => if is_space c then lstrip s' else s
  | [] => []
  end.

Definition strip (s : ustring) : ustring := rev (lstrip (rev (lstrip s))).

(** Value of a run of decimal digits, most significant first. *)
Fixpoint digits_value (acc : Z) (s : ustring) : Z :=
  match s with
  | [] => acc
  | c :: s' => digits_value (10 * acc + Z.of_N (c - 48)) s'
  end.

(** [int(s)] in base 10: white space around an optional sign and at
    least one digit.  The model knows the ASCII digits and blanks
    only: what it accepts [int] accepts with the same value, while
    the decimal digits and blanks of other scripts, which [int] also
    reads, are rejected here.  The model's rejection is always a
    [ValueError]; the interpreter raises a [UnicodeEncodeError], of
    the same family, for some characters beyond Latin-1. *)
Definition py_int (s : ustring) : result Z :=
  let bad := Raise (ValueError (InvalidLiteral s)) in
  let body (sign : Z) (ds : ustring) :=
    match ds with
    | [] => bad
    | _ => if forallb is_digit ds then Ok (sign * digits_value 0 ds)%Z else bad
    end in
  match strip s with
  | c :: ds =>
    if c =? 45 then body (-1)%Z ds
    else if c =? 43 then body 1%Z ds
    else body 1%Z (c :: ds)
  | [] => bad
  end.

Fixpoint uint_digits (d : Decimal.uint) : ustring :=
  match d with
  | Decimal.Nil => []
  | Decimal.D0 d => 48 :: uint_digits d
  | Decimal.D1 d => 49 :: uint_digits d
  | Decimal.D2 d => 50 :: uint_digits d
  | Decimal.D3 d => 51 :: uint_digits d
  | Decimal.D4 d => 52 :: uint_digits d
  | Decimal.D5 d => 53 :: uint_digits d
  | Decimal.D6 d => 54 :: uint_digits d
  | Decimal.D7 d => 55 :: uint_digits d
  | Decimal.D8 d => 56 :: uint_digits d
  | Decimal.D9 d => 57 :: uint_digits d
  end.

(** Decimal digits of a non-negative integer. *)
Definition decimal (n : Z) : ustring := uint_digits (N.to_uint (Z.to_N n)).

(** [%0<w>d] for a non-negative integer. *)
Definition zero_pad (w : nat) (n : Z) : ustring :=
  let ds := decimal n in
  repeat 48 (w - length ds) ++ ds.

(** ** [timedelta] *)

Module Timedelta.

Open Scope Z_scope.

(** The normalised triple the object stores:
    [0 <= seconds < 86400], [0 <= microseconds < 1000000]. *)
Record t := make { days : Z; seconds : Z; microseconds : Z }.

Definition us_per_day : Z := 86400000000.
Definition max_days : Z := 999999999.

Definition to_microseconds (d : t) : Z :=
  (days d * 86400 + seconds d) * 1000000 + microseconds d.

(** Normalisation, with the range check on the day count. *)
Definition of_microseconds (us : Z) : result t :=
  let d := us / us_per_day in
  if (- max_days <=? d) && (d <=? max_days)
  then Ok (make d ((us mod us_per_day) / 1000000) (us mod 1000000))
  else Raise OverflowError.

(** [timedelta(hours=h, minutes=m, seconds=s, milliseconds=ms)] on
    integer arguments. *)
Definition new (hours minutes secs milliseconds : Z) : result t :=
  of_microseconds
    (hours * 3600000000 + minutes * 60000000 + secs * 1000000
     + milliseconds * 1000).

Definition add (a b : t) : result t :=
  of_microseconds (to_microseconds a + to_microseconds b).

End Timedelta.

(** ** [duration_to_fps] *)

Definition duration_to_fps (duration_string : ustring) : result Timedelta.t :=
  let duration_set := split (chr ":") duration_string in
  seconds_field <- index duration_set 2 ;;
  let duration_set_ms := split (chr ".") seconds_field in
  if (length duration_set_ms =? 2)%nat then
    h_field <- index duration_set 0 ;;
    hours <- py_int h_field ;;
    m_field <- index duration_set 1 ;;
    minutes <- py_int m_field ;;
    s_field <- index duration_set_ms 0 ;;
    secs <- py_int s_field ;;
    ms_field <- index duration_set_ms 1 ;;
    milliseconds <- py_int ms_field ;;
    Timedelta.new hours minutes secs milliseconds
  else
    h_field <- index duration_set 0 ;;
    hours <- py_int h_field ;;
    m_field <- index duration_set 1 ;;
    minutes <- py_int m_field ;;
    s_field <- index duration_set_ms 0 ;;
    secs <- py_int s_field ;;
    Timedelta.new hours minutes secs 0.

(** ** [total_seconds()] and [str] of a float *)

Module Float.

Open Scope Z_scope.

(** A finite binary64 value [mant * 2^expo]; [mant] is zero or has
    exactly 53 bits. *)
Record t := make { negative : bool; mant : Z; expo : Z }.

(** [p/q] rounded to the nearest integer, ties to even
    ([0 <= p], [0 < q]). *)
Definition div_half_even (p q : Z) : Z :=
  let d := p / q in
  let r := p mod q in
  if 2 * r <? q then d
  else if q <? 2 * r then d + 1
  else if Z.even d then d else d + 1.

(** [p / (q * 2^e)] as a fraction of integers. *)
Definition scaled (p q e : Z) : Z * Z :=
  if 0 <=? e then (p, q * 2 ^ e) else (p * 2 ^ (- e), q).

(** The binary64 nearest to [p/q], for [0 < p], [0 < q] well inside
    the normal range. *)
Definition nearest (p q : Z) : Z * Z :=
  let e1 := Z.log2 p - Z.log2 q - 52 in
  let '(n1, d1) := scaled p q e1 in
  let e := if d1 * 2 ^ 52 <=? n1 then e1 else e1 - 1 in
  let '(n, d) := scaled p q e in
  let m := div_half_even n d in
  if m =? 2 ^ 53 then (2 ^ 52, e + 1) else (m, e).

(** True division of two integers, the second positive. *)
Definition true_divide (a b : Z) : t :=
  if a =? 0 then make false 0 0
  else let '(m, e) := nearest (Z.abs a) b in make (a <? 0) m e.

(** Position of the decimal point: [10^(decpt-1) <= p/q < 10^decpt]
    ([0 < p], [0 < q]); [fuel] bounds the search from [start]. *)
Fixpoint find_decpt (fuel : nat) (p q k : Z) : Z :=
  match fuel with
  | O => k
  | S fuel' =>
    let '(n, d) := if 0 <=? k then (p, q * 10 ^ k) else (p * 10 ^ (- k), q) in
    if n <? d then k else find_decpt fuel' p q (k + 1)
  end.

Fixpoint strip_zeros_rev (s : ustring) : ustring :=
  match s with
  | c :: s' => if (c =? 48)%N then strip_zeros_rev s' else s
  | [] => []
  end.

Definition strip_trailing_zeros (s : ustring) : ustring :=
  rev (strip_zeros_rev (rev s)).

(** The digits and decimal point position of a positive value
    rounded to [ndigits] significant digits, trailing zeros
    removed. *)
Definition to_digits (ndigits : Z) (m e : Z) : ustring * Z :=
  let '(p, q) := scaled m 1 (- e) in
  let k0 := find_decpt 400 p q (-30) in
  let shift := ndigits - k0 in
  let '(n, d) := if 0 <=? shift then (p * 10 ^ shift, q)
                 else (p, q * 10 ^ (- shift)) in
  let r := div_half_even n d in
  let '(r', k) := if r =? 10 ^ ndigits then (10 ^ (ndigits - 1), k0 + 1)
                  else (r, k0) in
  (strip_trailing_zeros (decimal r'), k).

(** [str(x)]: twelve significant digits in the [g] style, with [.0]
    appended to a result that would read as an integer. *)
Definition str (x : t) : ustring :=
  let sign := if negative x then [chr "-"] else [] in
  if mant x =? 0 then sign ++ u "0.0"
  else
    let '(ds, decpt) := to_digits 12 (mant x) (expo x) in
    let nd := Z.of_nat (length ds) in
    if (decpt <=? -4) || (11 <? decpt) then
      let ex := decpt - 1 in
      sign ++ firstn 1 ds
           ++ (match skipn 1 ds with [] => [] | fr => chr "." :: fr end)
           ++ [chr "e"] ++ (if ex <? 0 then [chr "-"] else [chr "+"])
           ++ zero_pad 2 (Z.abs ex)
    else if decpt <=? 0 then
      sign ++ u "0." ++ repeat 48%N (Z.to_nat (- decpt)) ++ ds
    else if nd <=? decpt then
      sign ++ ds ++ repeat 48%N (Z.to_nat (decpt - nd)) ++ u ".0"
    else
      sign ++ firstn (Z.to_nat decpt) ds ++ [chr "."]
           ++ skipn (Z.to_nat decpt) ds.

End Float.

(** [td.total_seconds()]. *)
Definition total_seconds (td : Timedelta.t) : Float.t :=
  Float.true_divide (Timedelta.to_microseconds td) 1000000.


(** ** Regular expressions, as far as [strptime] builds them *)

Module Re.

Inductive t :=
| Chr (c : N)                (* one literal character, case ignored *)
| Range (lo hi : N)          (* [lo-hi] *)
| Spaces                     (* \s+ *)
| Cat (a b : t)
| Alt (a b : t)              (* a|b, the left branch tried first *)
| Group (name : N) (a : t).  (* (?P<name>a) *)

Definition groups := list (N * ustring).

Definition lower (c : N) : N :=
  if (65 <=? c) && (c <=? 90) then c + 32 else c.

Fixpoint get (name : N) (g : groups) : ustring :=
  match g with
  | (n, v) :: g' => if n =? name then v else get name g'
  | [] => []
  end.

Section Matcher.

Context {A : Type}.

(** [\s*], greedy, then the continuation; gives back white space
    when the continuation fails. *)
Fixpoint spaces_star (s : ustring) (k : ustring -> option A) : option A :=
  match s with
  | c :: s' =>
    if is_space c then
      match spaces_star s' k with
      | Some x => Some x
      | None => k s
      end
    else k s
  | [] => k s
  end.

(** Backtracking match of [r] at the head of [s]; [k] continues on
    the rest of the text with the groups captured so far. *)
Fixpoint run (r : t) (s : ustring) (g : groups)
         (k : ustring -> groups -> option A) : option A :=
  match r with
  | Chr c =>
    match s with
    | x :: s' => if lower x =? lower c then k s' g else None
    | [] => None
    end
  | Range lo hi =>
    match s with
    | x :: s' => if (lo <=? x) && (x <=? hi) then k s' g else None
    | [] => None
    end
  | Spaces =>
    match s with
    | x :: s' =>
      if is_space x then spaces_star s' (fun s'' => k s'' g) else None
    | [] => None
    end
  | Cat a b => run a s g (fun s' g' => run b s' g' k)
  | Alt a b =>
    match run a s g k with
    | Some x => Some x
    | None => run b s g k
    end
  | Group name a =>
    run a s g
        (fun s' g' =>
           k s' ((name, firstn (length s - length s') s) :: g'))
  end.

End Matcher.

(** [re.match]: anchored at the start only; returns the groups and
    the text left over. *)
Definition match_prefix (r : t) (s : ustring) : option (groups * ustring) :=
  run r s [] (fun s' g => Some (g, s')).

End Re.

(** ** The calendar *)

Module Calendar.

Open Scope Z_scope.

Definition is_leap (y : Z) : bool :=
  (y mod 4 =? 0) && (negb (y mod 100 =? 0) || (y mod 400 =? 0)).

Definition days_in_month (y m : Z) : Z :=
  if m =? 2 then (if is_leap y then 29 else 28)
  else if (m =? 4) || (m =? 6) || (m =? 9) || (m =? 11) then 30
  else 31.

(** Days from 1970-01-01 to the given date of the proleptic
    Gregorian calendar. *)
Definition days_from_civil (y m d : Z) : Z :=
  let y' := if m <=? 2 then y - 1 else y in
  let era := y' / 400 in
  let yoe := y' - era * 400 in
  let doy := (153 * (if 2 <? m then m - 3 else m + 9) + 2) / 5 + d - 1 in
  let doe := yoe * 365 + yoe / 4 - yoe / 100 + doy in
  era * 146097 + doe - 719468.

Definition civil_from_days (n : Z) : Z * Z * Z :=
  let z := n + 719468 in
  let era := z / 146097 in
  let doe := z - era * 146097 in
  let yoe := (doe - doe / 1460 + doe / 36524 - doe / 146096) / 365 in
  let doy := doe - (365 * yoe + yoe / 4 - yoe / 100) in
  let mp := (5 * doy + 2) / 153 in
  let d := doy - (153 * mp + 2) / 5 + 1 in
  let m := if mp <? 10 then mp + 3 else mp - 9 in
  ((if m <=? 2 then yoe + era * 400 + 1 else yoe + era * 400), m, d).

(** Day of the week, Sunday being 0. *)
Definition weekday (n : Z) : Z := (n + 4) mod 7.

Definition sunday_on_or_after (y m d : Z) : Z :=
  let n := days_from_civil y m d in n + (7 - weekday n) mod 7.

Definition last_sunday (y m : Z) : Z :=
  let n := days_from_civil y m (days_in_month y m) in n - weekday n.

End Calendar.

(** ** [datetime], [strptime], the two zones *)

Module Datetime.

Open Scope Z_scope.

Record t := make
  { year : Z; month : Z; day : Z; hour : Z; minute : Z; second : Z }.

(** Seconds from 1970-01-01T00:00:00 on the object's own clock. *)
Definition to_seconds (d : t) : Z :=
  Calendar.days_from_civil (year d) (month d) (day d) * 86400
  + hour d * 3600 + minute d * 60 + second d.

Definition of_seconds (s : Z) : t :=
  let '(y, m, d) := Calendar.civil_from_days (s / 86400) in
  let r := s mod 86400 in
  make y m d (r / 3600) ((r mod 3600) / 60) (r mod 60).

Definition digit : Re.t := Re.Range (chr "0") (chr "9").

(** [1[0-2]|0[1-9]|[1-9]], the pattern of [%m] and [%I]. *)
Definition re_1_12 : Re.t :=
  Re.Alt (Re.Cat (Re.Chr (chr "1")) (Re.Range (chr "0") (chr "2")))
 (Re.Alt (Re.Cat (Re.Chr (chr "0")) (Re.Range (chr "1") (chr "9")))
         (Re.Range (chr "1") (chr "9"))).

(** [3[0-1]|[1-2]\d|0[1-9]|[1-9]| [1-9]], the pattern of [%d]. *)
Definition re_d : Re.t :=
  Re.Alt (Re.Cat (Re.Chr (chr "3")) (Re.Range (chr "0") (chr "1")))
 (Re.Alt (Re.Cat (Re.Range (chr "1") (chr "2")) digit)
 (Re.Alt (Re.Cat (Re.Chr (chr "0")) (Re.Range (chr "1") (chr "9")))
 (Re.Alt (Re.Range (chr "1") (chr "9"))
         (Re.Cat (Re.Chr (chr " ")) (Re.Range (chr "1") (chr "9")))))).

(** [[0-5]\d|\d], the pattern of [%M]. *)
Definition re_M : Re.t :=
  Re.Alt (Re.Cat (Re.Range (chr "0") (chr "5")) digit) digit.

(** [6[0-1]|[0-5]\d|\d], the pattern of [%S]. *)
Definition re_S : Re.t :=
  Re.Alt (Re.Cat (Re.Chr (chr "6")) (Re.Range (chr "0") (chr "1"))) re_M.

(** [am|pm], the pattern of [%p] in the C locale. *)
Definition re_p : Re.t :=
  Re.Alt (Re.Cat (Re.Chr (chr "a")) (Re.Chr (chr "m")))
         (Re.Cat (Re.Chr (chr "p")) (Re.Chr (chr "m"))).

Fixpoint cat (rs : list Re.t) (last : Re.t) : Re.t :=
  match rs with
  | [] => last
  | r :: rs' => Re.Cat r (cat rs' last)
  end.

(** The pattern compiled from ["%m/%d/%y %I:%M:%S %p"]: each
    directive a named group, each blank of the format [\s+]. *)
Definition format_regex : Re.t :=
  cat [Re.Group (chr "m") re_1_12; Re.Chr (chr "/");
       Re.Group (chr "d") re_d; Re.Chr (chr "/");
       Re.Group (chr "y") (Re.Cat digit digit); Re.Spaces;
       Re.Group (chr "I") re_1_12; Re.Chr (chr ":");
       Re.Group (chr "M") re_M; Re.Chr (chr ":");
       Re.Group (chr "S") re_S; Re.Spaces]
      (Re.Group (chr "p") re_p).

(** [datetime.strptime(data_string, "%m/%d/%y %I:%M:%S %p")].  The
    text is first turned into a byte string with the ASCII codec. *)
Definition strptime (data_string : ustring) : result t :=
  if existsb (fun c => (128 <=? c)%N) data_string then Raise UnicodeEncodeError
  else
    match Re.match_prefix format_regex data_string with
    | None => Raise (ValueError (NoMatch data_string))
    | Some (found, rest) =>
      match rest with
      | _ :: _ => Raise (ValueError (UnconvertedData rest))
      | [] =>
        y <- py_int (Re.get (chr "y") found) ;;
        let year := if y <=? 68 then y + 2000 else y + 1900 in
        month <- py_int (Re.get (chr "m") found) ;;
        day <- py_int (Re.get (chr "d") found) ;;
        h <- py_int (Re.get (chr "I") found) ;;
        let ampm := map Re.lower (Re.get (chr "p") found) in
        let hour :=
          if ustring_eqb ampm (u "am") then (if h =? 12 then 0 else h)
          else if ustring_eqb ampm (u "pm") then (if h =? 12 then h else h + 12)
          else h in
        minute <- py_int (Re.get (chr "M") found) ;;
        second <- py_int (Re.get (chr "S") found) ;;
        if (Calendar.days_in_month year month <? day) || (59 <? second)
        then Raise (ValueError FieldOutOfRange)
        else Ok (make year month day hour minute second)
      end
    end.

(** Daylight-saving period of the United States for a year, as the
    days on which it starts and ends; the compiled zone tables hold
    transitions up to 2037. *)
Definition us_dst (y : Z) : option (Z * Z) :=
  if y <? 1967 then None
  else if y <=? 1973 then Some (Calendar.last_sunday y 4, Calendar.last_sunday y 10)
  else if y =? 1974 then Some (Calendar.days_from_civil y 1 6, Calendar.last_sunday y 10)
  else if y =? 1975 then Some (Calendar.days_from_civil y 2 23, Calendar.last_sunday y 10)
  else if y <=? 1986 then Some (Calendar.last_sunday y 4, Calendar.last_sunday y 10)
  else if y <=? 2006 then Some (Calendar.sunday_on_or_after y 4 1, Calendar.last_sunday y 10)
  else if y <=? 2037 then Some (Calendar.sunday_on_or_after y 3 8,
                                Calendar.sunday_on_or_after y 11 1)
  else None.

(** An aware datetime: the wall clock and its offset from UTC in
    seconds. *)
Record aware := with_offset { wall : t; utcoffset : Z }.

(** [timezone('US/Pacific').localize(d)], [is_dst=False]: the hour
    skipped in spring and the hour repeated in autumn both read as
    standard time. *)
Definition localize_pacific (d : t) : aware :=
  let w := to_seconds d in
  let dst :=
    match us_dst (year d) with
    | Some (first, last) =>
      (first * 86400 + 3 * 3600 <=? w) && (w <? last * 86400 + 3600)
    | None => false
    end in
  with_offset d (if dst then -7 * 3600 else -8 * 3600).

(** [a.astimezone(timezone('US/Eastern'))]. *)
Definition astimezone_eastern (a : aware) : aware :=
  let utc := to_seconds (wall a) - utcoffset a in
  let dst :=
    match us_dst (year (of_seconds utc)) with
    | Some (first, last) =>
      (first * 86400 + 7 * 3600 <=? utc) && (utc <? last * 86400 + 6 * 3600)
    | None => false
    end in
  let off := if dst then -4 * 3600 else -5 * 3600 in
  with_offset (of_seconds (utc + off)) off.

(** [a.isoformat()] for a value without microseconds. *)
Definition isoformat (a : aware) : ustring :=
  let d := wall a in
  let off := Z.abs (utcoffset a) in
  zero_pad 4 (year d) ++ u "-" ++ zero_pad 2 (month d) ++ u "-"
    ++ zero_pad 2 (day d) ++ u "T" ++ zero_pad 2 (hour d) ++ u ":"
    ++ zero_pad 2 (minute d) ++ u ":" ++ zero_pad 2 (second d)
    ++ (if utcoffset a <? 0 then u "-" else u "+")
    ++ zero_pad 2 (off / 3600) ++ u ":" ++ zero_pad 2 ((off mod 3600) / 60).

End Datetime.

(** ** [iso_est_date] *)

Definition iso_est_date (pt_date_string : ustring)
  : result (option ustring * option exn) :=
  match Datetime.strptime pt_date_string with
  | Ok pt_datetime =>
    let pt_datetime_tz := Datetime.localize_pacific pt_datetime in
    Ok (Some (Datetime.isoformat (Datetime.astimezone_eastern pt_datetime_tz)),
        None)
  | Raise e => if is_ValueError e then Ok (None, Some e) else Raise e
  end.

(** ** The record formatter *)

(** [maybe_quote]: [","] is 44 and the quote character 34. *)
Definition maybe_quote (u_csv_element : ustring) : ustring :=
  if existsb (N.eqb (chr ",")) u_csv_element
  then [34] ++ u_csv_element ++ [34]
  else u_csv_element.

(** ["{:0>5}".format(x)] on a text argument.  The template is a byte
    string, so the formatted text is turned into one with the ASCII
    codec. *)
Definition format_zip (x : ustring) : result ustring :=
  let padded := repeat (chr "0") (5 - length x) ++ x in
  if existsb (fun c => 128 <=? c) padded then Raise UnicodeEncodeError
  else Ok padded.

(** Upper case of one character, for ASCII and Latin-1 as
    [unicode.upper()] maps them.  The case table of the characters
    beyond Latin-1 is not part of the model, which leaves them as
    they are; statements about [upper] are made for text within the
    modelled range. *)
Definition toupper (c : N) : N :=
  if (97 <=? c) && (c <=? 122) then c - 32
  else if c =? 0xB5 then 0x39C
  else if c =? 0xFF then 0x178
  else if (0xE0 <=? c) && (c <=? 0xFE) && negb (c =? 0xF7) then c - 32
  else c.

Definition upper (s : ustring) : ustring := map toupper s.

(** [','.join(fields)]. *)
Fixpoint join (fields : list ustring) : ustring :=
  match fields with
  | [] => []
  | [f] => f
  | f :: rest => f ++ chr "," :: join rest
  end.

(** [not s] for a value that is [None] or a string. *)
Definition is_falsy (s : option ustring) : bool :=
  match s with
  | None | Some [] => true
  | Some (_ :: _) => false
  end.

(** ** The two channels and the row loop *)

(** One line of the error channel:
    ["WARNING: (%s) Dropping row %s\n" % (e, csv_row)]. *)
Inductive diagnostic :=
| Warning (cause : option exn) (csv_row : list bytes).

Record channels := Channels
  { stdout : bytes;               (* every byte written, in order *)
    stderr : list diagnostic }.   (* every line written, in order *)

(** A computation that writes to the channels and may raise. *)
Definition io (A : Type) : Type := channels -> channels * result A.

Definition ret {A} (a : A) : io A := fun w => (w, Ok a).

Definition lift {A} (r : result A) : io A := fun w => (w, r).

Definition iobind {A B} (m : io A) (f : A -> io B) : io B :=
  fun w =>
    match m w with
    | (w', Ok a) => f a w'
    | (w', Raise e) => (w', Raise e)
    end.

Notation "x <~ m ;; k" := (iobind m (fun x => k))
  (at level 61, m at next level, right associativity).

Definition NEWLINE : byte := x0a.

(** [utf8_print]. *)
Definition utf8_print (u_csv_row : list ustring) : io unit :=
  fun w =>
    let s := Utf8.encode (join u_csv_row) in
    (Channels (stdout w ++ s ++ [NEWLINE]) (stderr w), Ok tt).

Definition stderr_write (d : diagnostic) : io unit :=
  fun w => (Channels (stdout w) (stderr w ++ [d]), Ok tt).

(** The part of the loop body that follows the header test. *)
Definition process_data_row (csv_row : list bytes) (u_csv_row : list ustring)
  : io unit :=
  ts_field <~ lift (index u_csv_row 0) ;;
  parsed <~ lift (iso_est_date ts_field) ;;
  let '(iso_ts, e) := parsed in
  if is_falsy iso_ts then stderr_write (Warning e csv_row)
  else
    let new_row := match iso_ts with Some s => [s] | None => [] end in
    address <~ lift (index u_csv_row 1) ;;
    let new_row := new_row ++ [maybe_quote address] in
    zip <~ lift (index u_csv_row 2) ;;
    zip5 <~ lift (format_zip zip) ;;
    let new_row := new_row ++ [zip5] in
    name <~ lift (index u_csv_row 3) ;;
    let new_row := new_row ++ [upper name] in
    first_field <~ lift (index u_csv_row 4) ;;
    first_duration <~ lift (duration_to_fps first_field) ;;
    let new_row := new_row ++ [Float.str (total_seconds first_duration)] in
    second_field <~ lift (index u_csv_row 5) ;;
    second_duration <~ lift (duration_to_fps second_field) ;;
    let new_row := new_row ++ [Float.str (total_seconds second_duration)] in
    total <~ lift (Timedelta.add first_duration second_duration) ;;
    let new_row := new_row ++ [Float.str (total_seconds total)] in
    notes <~ lift (index u_csv_row 7) ;;
    let new_row := new_row ++ [maybe_quote notes] in
    utf8_print new_row.

(** The body of the loop of [process_csv_input] for one record. *)
Definition process_row (csv_row : list bytes) : io unit :=
  u_csv_row <~ lift (sanitize_unicode csv_row) ;;
  header <~ lift (index u_csv_row 0) ;;
  if ustring_eqb header (u "Timestamp") then utf8_print u_csv_row
  else process_data_row csv_row u_csv_row.

(** The loop over the records the CSV reader yields; an exception
    leaving the body ends the run. *)
Fixpoint process_rows (reader : list (list bytes)) : io unit :=
  match reader with
  | [] => ret tt
  | csv_row :: rest => _ <~ process_row csv_row ;; process_rows rest
  end.

Definition process_csv_input (reader : list (list bytes))
  : channels * result unit :=
  process_rows reader (Channels [] []).

(** ** The orchestrator as the specification words it

    Section 4.5 of the specification describes a machine with a
    [HEADER_SEEN] flag that is raised by the first record whose first
    field is the header literal; a later such record is then a data
    row.  This definition follows those words, to be compared with
    [process_rows]. *)

Module HeaderOnce.

Fixpoint process_rows (header_seen : bool) (reader : list (list bytes))
  : io unit :=
  match reader with
  | [] => ret tt
  | csv_row :: rest =>
    u_csv_row <~ lift (sanitize_unicode csv_row) ;;
    header <~ lift (index u_csv_row 0) ;;
    if negb header_seen && ustring_eqb header (u "Timestamp") then
      _ <~ utf8_print u_csv_row ;; process_rows true rest
    else
      _ <~ process_data_row csv_row u_csv_row ;; process_rows header_seen rest
  end.

Definition process_csv_input (reader : list (list bytes))
  : channels * result unit :=
  process_rows false reader (Channels [] []).

End HeaderOnce.

(** ** Sample records *)

Definition QUOTE : byte := x22.

(** The record of the header comment of the script, as the CSV reader
    hands it over. *)
Definition sample_row : list bytes :=
  map bytes_of
      ["4/1/11 11:00:00 AM"; "123 4th St, Anywhere, AA"; "94121";
       "Monkey Alberto"; "1:23:32"; "1:32:33"; "zzsasdfa";
       "I am the very model"]%string.

Definition sample_output : bytes :=
  bytes_of "2011-04-01T14:00:00-04:00," ++ [QUOTE]
    ++ bytes_of "123 4th St, Anywhere, AA" ++ [QUOTE]
    ++ bytes_of ",94121,MONKEY ALBERTO,5012.0,5553.0,10565.0,I am the very model"
    ++ [NEWLINE].

(** [sample_row] with other bytes in one column. *)
Definition sample_with (column : nat) (field : bytes) : list bytes :=
  firstn column sample_row ++ field :: skipn (S column) sample_row.

Definition header_row : list bytes :=
  map bytes_of
      ["Timestamp"; "Address"; "ZIP"; "FullName"; "FooDuration";
       "BarDuration"; "TotalDuration"; "Notes"]%string.

Definition header_output : bytes :=
  bytes_of
    "Timestamp,Address,ZIP,FullName,FooDuration,BarDuration,TotalDuration,Notes"
    ++ [NEWLINE].

(** ** Predicates and functions of the statements *)

(** Bytes below 128 only. *)
Definition is_ascii (s : bytes) : Prop := Forall (fun b => Byte.to_N b < 128) s.

(** The 256 bytes. *)
Definition all_bytes : list byte :=
  map (fun n => Utf8.byte_of (N.of_nat n)) (seq 0 256).

(** [P] holds of every byte that passes the test [c]. *)
Definition forall_bytes (c P : byte -> bool) : bool :=
  forallb (fun b => if c b then P b else true) all_bytes.

(** Equality of byte strings, as a test. *)
Fixpoint bytes_eqb (a b : bytes) : bool :=
  match a, b with
  | [], [] => true
  | x :: a', y :: b' => Byte.eqb x y && bytes_eqb a' b'
  | _, _ => false
  end.

(** One sequence: when [s] decodes, it decodes to one code point
    that is encoded as [s] again. *)
Definition sequence_ok (s : bytes) : bool :=
  match Utf8.decode_from 0 s with
  | Utf8.Decoded [c] => bytes_eqb (Utf8.encode_cp c) s
  | Utf8.Decoded _ => false
  | Utf8.DecodeError _ _ => true
  end.

(** [b] is a lead byte that announces [n] bytes. *)
Definition lead (n : nat) (b : byte) : bool :=
  (Utf8.code_length (Byte.to_N b) =? n)%nat.

(** The code points the encoder may merge with the next one. *)
Definition high_surrogate (c : N) : bool := (0xD800 <=? c) && (c <=? 0xDBFF).

(** Characters below 128 only. *)
Definition is_ascii_text (s : ustring) : Prop := Forall (fun c => c < 128) s.

(** [m] behaves on any channels as on empty ones, up to what was
    already written. *)
Definition framed {A} (m : io A) : Prop :=
  forall out err,
    m (Channels out err) =
    let '(w, r) := m (Channels [] []) in
    (Channels (out ++ stdout w) (err ++ stderr w), r).

(** The fields of a record that are there can be formatted: the
    postal code is ASCII text, the durations parse and add up. *)
Definition present_fields_ok (u_csv_row : list ustring) : Prop :=
  (forall z, nth_error u_csv_row 2 = Some z -> is_ascii_text z)
  /\ (forall d, nth_error u_csv_row 4 = Some d ->
                exists td, duration_to_fps d = Ok td)
  /\ (forall d, nth_error u_csv_row 5 = Some d ->
                exists td, duration_to_fps d = Ok td)
  /\ (forall a b ta tb,
         nth_error u_csv_row 4 = Some a -> nth_error u_csv_row 5 = Some b ->
         duration_to_fps a = Ok ta -> duration_to_fps b = Ok tb ->
         exists t, Timedelta.add ta tb = Ok t).

(** A non-empty run of decimal digits. *)
Definition digit_string (s : ustring) : Prop :=
  s <> [] /\ forallb is_digit s = true.

(** The duration text built from its components. *)
Definition duration_text (h m s : ustring) (f : option ustring) : ustring :=
  h ++ chr ":" :: m ++ chr ":" :: s
    ++ match f with Some x => chr "." :: x | None => [] end.

(** The elapsed microseconds the components denote. *)
Definition duration_microseconds (h m s : ustring) (f : option ustring) : Z :=
  ((digits_value 0 h * 3600 + digits_value 0 m * 60 + digits_value 0 s) * 1000
   + match f with Some x => digits_value 0 x | None => 0 end)%Z * 1000.

(** The text [H:MM:SS] or [H:MM:SS.fff] of the given numbers. *)
Definition duration_string (H M S : Z) (F : option Z) : ustring :=
  duration_text (decimal H) (zero_pad 2 M) (zero_pad 2 S)
                (option_map (zero_pad 3) F).

(** [ta] put in front of what the decoder gives for the rest. *)
Definition prepend (ta : ustring) (d : Utf8.decoded) : Utf8.decoded :=
  match d with
  | Utf8.Decoded t => Utf8.Decoded (ta ++ t)
  | Utf8.DecodeError a b => Utf8.DecodeError a b
  end.

(** Byte strings joined by the delimiter. *)
Fixpoint bytes_join (fields : list bytes) : bytes :=
  match fields with
  | [] => []
  | [f] => f
  | f :: rest => f ++ x2c :: bytes_join rest
  end.

(** Text without a colon. *)
Definition no_colon (s : ustring) : Prop :=
  forallb (fun c => negb (c =? chr ":")) s = true.

(** What one record, processed on its own, writes. *)
Definition row_stdout (csv_row : list bytes) : bytes :=
  stdout (fst (process_row csv_row (Channels [] []))).

Definition row_stderr (csv_row : list bytes) : list diagnostic :=
  stderr (fst (process_row csv_row (Channels [] []))).

(** The text [M/D/YY h:mm:ss AM] or [... PM] of the given numbers. *)
Definition timestamp_text (month day yy hour minute second : Z) (pm : bool)
  : ustring :=
  decimal month ++ chr "/" :: decimal day ++ chr "/" :: zero_pad 2 yy
    ++ chr " " :: decimal hour ++ chr ":" :: zero_pad 2 minute
    ++ chr ":" :: zero_pad 2 second
    ++ chr " " :: (if pm then u "PM" else u "AM").

(** The hour of the day of an hour of the 12-hour clock. *)
Definition hour24 (hour : Z) (pm : bool) : Z :=
  if pm then (if hour =? 12 then 12 else hour + 12)%Z
  else (if hour =? 12 then 0 else hour)%Z.

(** The year of a two-digit year. *)
Definition year_of (yy : Z) : Z :=
  (if yy <=? 68 then yy + 2000 else yy + 1900)%Z.

(** [r] matches [p] in front of [rest] whenever the rest of the
    pattern, the continuation [k], matches [rest]. *)
Definition accepts {A} (r : Re.t) (p rest : ustring) : Prop :=
  forall g (k : ustring -> Re.groups -> option A) x,
    k rest g = Some x -> Re.run r (p ++ rest) g k = Some x.

(** A computation that leaves the error channel as it is. *)
Definition quiet {A} (m : io A) : Prop :=
  forall w w' r, m w = (w', r) -> stderr w' = stderr w.

(** A record whose timestamp is no timestamp and whose notes hold two
    invalid bytes. *)
Definition unparsable_unrepaired_row : list bytes :=
  bytes_of "not-a-date" :: firstn 6 (skipn 1 sample_row) ++ [[xff; x41; xff]].

(** * Properties *)

(** Closed statements about concrete records are settled by running
    the definitions. *)
Ltac by_evaluation :=
  repeat match goal with |- _ /\ _ => split end; vm_compute; reflexivity.

(** ** The row loop *)

Lemma process_rows_cons (csv_row : list bytes) (rest : list (list bytes))
      (w : channels) :
  process_rows (csv_row :: rest) w =
  match process_row csv_row w with
  | (w', Ok _) => process_rows rest w'
  | (w', Raise e) => (w', Raise e)
  end.
Proof. reflexivity. Qed.

(** Rows after a prefix that ends normally are processed from the
    channels the prefix leaves. *)
Lemma process_rows_app (pre rest : list (list bytes)) (w w' : channels) :
  process_rows pre w = (w', Ok tt) ->
  process_rows (pre ++ rest) w = process_rows rest w'.
Proof.
  revert w. induction pre as [|r pre IH]; intros w H.
  - cbn in H. injection H as ->. reflexivity.
  - rewrite <- app_comm_cons, process_rows_cons.
    rewrite process_rows_cons in H.
    destruct (process_row r w) as [w1 [[]|e]].
    + now apply IH.
    + discriminate.
Qed.

(** An exception in a prefix of the input ends the run there. *)
Lemma process_rows_app_raise (pre rest : list (list bytes)) (w w' : channels)
      (e : exn) :
  process_rows pre w = (w', Raise e) ->
  process_rows (pre ++ rest) w = (w', Raise e).
Proof.
  revert w. induction pre as [|r pre IH]; intros w H.
  - discriminate.
  - rewrite <- app_comm_cons, process_rows_cons.
    rewrite process_rows_cons in H.
    destruct (process_row r w) as [w1 [[]|e1]].
    + now apply IH.
    + exact H.
Qed.

Lemma sanitize_unicode_length (csv_row : list bytes) (u_csv_row : list ustring) :
  sanitize_unicode csv_row = Ok u_csv_row -> length u_csv_row = length csv_row.
Proof.
  revert u_csv_row. induction csv_row as [|b row IH]; intros us H; cbn in H.
  - injection H as <-. reflexivity.
  - destruct (sanitize_element b); [|discriminate].
    destruct (sanitize_unicode row); [|discriminate].
    injection H as <-. cbn. f_equal. now apply IH.
Qed.

Lemma ustring_eqb_eq (a b : ustring) : ustring_eqb a b = true <-> a = b.
Proof.
  unfold ustring_eqb. destruct (list_eq_dec N.eq_dec a b); split; congruence.
Qed.

Lemma ustring_eqb_neq (a b : ustring) : ustring_eqb a b = false <-> a <> b.
Proof.
  unfold ustring_eqb. destruct (list_eq_dec N.eq_dec a b); split; congruence.
Qed.

Lemma index_nth_error {A} (l : list A) (i : nat) (x : A) :
  nth_error l i = Some x -> index l i = Ok x.
Proof. unfold index. now intros ->. Qed.

(** What [process_row] does with a record whose first field is the
    header literal. *)
Lemma process_row_header (csv_row : list bytes) (u_csv_row : list ustring)
      (w : channels) :
  sanitize_unicode csv_row = Ok u_csv_row ->
  nth_error u_csv_row 0 = Some (u "Timestamp") ->
  process_row csv_row w =
  (Channels (stdout w ++ Utf8.encode (join u_csv_row) ++ [NEWLINE]) (stderr w),
   Ok tt).
Proof.
  intros Hs H0. unfold process_row, iobind, lift.
  rewrite Hs, (index_nth_error _ _ _ H0).
  replace (ustring_eqb (u "Timestamp") (u "Timestamp")) with true
    by (symmetry; now apply ustring_eqb_eq).
  reflexivity.
Qed.

(** What [process_row] does with a record whose first field is not the
    header literal. *)
Lemma process_row_data (csv_row : list bytes) (u_csv_row : list ustring)
      (ts : ustring) (w : channels) :
  sanitize_unicode csv_row = Ok u_csv_row ->
  nth_error u_csv_row 0 = Some ts ->
  ts <> u "Timestamp" ->
  process_row csv_row w = process_data_row csv_row u_csv_row w.
Proof.
  intros Hs H0 Hne. unfold process_row, iobind, lift.
  rewrite Hs, (index_nth_error _ _ _ H0).
  apply ustring_eqb_neq in Hne. now rewrite Hne.
Qed.

(** ** The timestamp normaliser never lets an exception through *)

Lemma py_int_raises (s : ustring) (e : exn) :
  py_int s = Raise e -> e = ValueError (InvalidLiteral s).
Proof.
  unfold py_int. intros H.
  destruct (strip s) as [|c ds]; [congruence|].
  repeat match type of H with
         | (if ?b then _ else _) = _ => destruct b
         | match ?l with [] => _ | _ :: _ => _ end = _ => destruct l
         end; congruence.
Qed.

Lemma strptime_raises (s : ustring) (e : exn) :
  Datetime.strptime s = Raise e -> is_ValueError e = true.
Proof.
  unfold Datetime.strptime. intros H.
  destruct (existsb _ s); [injection H as <-; reflexivity|].
  destruct (Re.match_prefix _ s) as [[found rest]|];
    [|injection H as <-; reflexivity].
  destruct rest; [|injection H as <-; reflexivity].
  repeat match type of H with
         | rbind (py_int ?x) _ = _ =>
           let E := fresh "E" in
           destruct (py_int x) eqn:E; cbn [rbind] in H;
           [|apply py_int_raises in E; injection H as <-; subst; reflexivity]
         end.
  destruct (_ || _); [injection H as <-; reflexivity|discriminate].
Qed.

Lemma iso_est_date_failure (ts : ustring) (e : exn) :
  Datetime.strptime ts = Raise e -> iso_est_date ts = Ok (None, Some e).
Proof.
  intros H. unfold iso_est_date. rewrite H.
  now rewrite (strptime_raises _ _ H).
Qed.

Lemma iso_est_date_total (ts : ustring) :
  exists r, iso_est_date ts = Ok r.
Proof.
  unfold iso_est_date. destruct (Datetime.strptime ts) eqn:E.
  - eexists. reflexivity.
  - rewrite (strptime_raises _ _ E). eexists. reflexivity.
Qed.

(** ** The encoding sanitizer *)

Lemma decode_from_ascii (s : bytes) (pos : nat) :
  is_ascii s -> Utf8.decode_from pos s = Utf8.Decoded (map Byte.to_N s).
Proof.
  intros H. revert pos. induction H as [|b s Hb Hs IH]; intros pos.
  - reflexivity.
  - cbn [Utf8.decode_from map].
    unfold Utf8.code_length.
    apply N.ltb_lt in Hb. rewrite Hb. now rewrite IH.
Qed.

Lemma decode_ascii (s : bytes) :
  is_ascii s -> Utf8.decode s = Ok (map Byte.to_N s).
Proof. intros H. unfold Utf8.decode. now rewrite decode_from_ascii. Qed.

Lemma sanitize_element_valid (csv_element : bytes) (t : ustring) :
  Utf8.decode csv_element = Ok t -> sanitize_element csv_element = Ok t.
Proof. intros H. unfold sanitize_element. now rewrite H. Qed.

Lemma sanitize_unicode_valid (csv_row : list bytes) (texts : list ustring) :
  Forall2 (fun b t => Utf8.decode b = Ok t) csv_row texts ->
  sanitize_unicode csv_row = Ok texts.
Proof.
  induction 1 as [|b t row ts Hb _ IH]; cbn.
  - reflexivity.
  - now rewrite (sanitize_element_valid _ _ Hb), IH.
Qed.


(** *** Encoding what was decoded

    The sequences of one to three bytes the decoder accepts are
    checked by running the codec on each of them. *)

Lemma all_bytes_complete (b : byte) : In b all_bytes.
Proof.
  unfold all_bytes. apply in_map_iff. exists (N.to_nat (Byte.to_N b)). split.
  - rewrite N2Nat.id. unfold Utf8.byte_of. now rewrite Byte.of_to_N.
  - apply in_seq. pose proof (Byte.to_N_bounded b). lia.
Qed.

Lemma forall_bytes_spec (c P : byte -> bool) :
  forall_bytes c P = true -> forall b, c b = true -> P b = true.
Proof.
  intros H b Hc. unfold forall_bytes in H. rewrite forallb_forall in H.
  specialize (H b (all_bytes_complete b)). cbv beta in H. now rewrite Hc in H.
Qed.

Lemma bytes_eqb_eq (a b : bytes) : bytes_eqb a b = true -> a = b.
Proof.
  revert b. induction a as [|x a IH]; destruct b as [|y b]; cbn;
    try discriminate; auto.
  intros H. apply andb_prop in H as [H1 H2].
  apply Byte.byte_dec_bl in H1. subst. f_equal. auto.
Qed.

Section Nested.

Variables c0 c1 c2 : byte -> bool.

Lemma forall_bytes_spec2 (P : byte -> byte -> bool) :
  forall_bytes c0 (fun b0 => forall_bytes c1 (fun b1 => P b0 b1)) = true ->
  forall b0 b1, c0 b0 = true -> c1 b1 = true -> P b0 b1 = true.
Proof.
  intros H b0 b1 H0 H1.
  apply (forall_bytes_spec c1 (fun b1 => P b0 b1)); [|exact H1].
  apply (forall_bytes_spec c0 (fun b0 => forall_bytes c1 (fun b1 => P b0 b1)));
    assumption.
Qed.

Lemma forall_bytes_spec3 (P : byte -> byte -> byte -> bool) :
  forall_bytes c0 (fun b0 => forall_bytes c1 (fun b1 =>
    forall_bytes c2 (fun b2 => P b0 b1 b2))) = true ->
  forall b0 b1 b2, c0 b0 = true -> c1 b1 = true -> c2 b2 = true ->
                   P b0 b1 b2 = true.
Proof.
  intros H b0 b1 b2 H0 H1 H2.
  apply (forall_bytes_spec c2 (fun b2 => P b0 b1 b2)); [|exact H2].
  apply (forall_bytes_spec c1
           (fun b1 => forall_bytes c2 (fun b2 => P b0 b1 b2))); [|exact H1].
  apply (forall_bytes_spec c0
           (fun b0 => forall_bytes c1 (fun b1 =>
              forall_bytes c2 (fun b2 => P b0 b1 b2)))); assumption.
Qed.

End Nested.



Lemma sequences_1_ok :
  forall_bytes (lead 1) (fun b0 => sequence_ok [b0]) = true.
Proof. vm_cast_no_check (eq_refl true). Qed.

Lemma sequences_2_ok :
  forall_bytes (lead 2) (fun b0 =>
  forall_bytes Utf8.is_cont (fun b1 => sequence_ok [b0; b1])) = true.
Proof. vm_cast_no_check (eq_refl true). Qed.

Lemma sequences_3_ok :
  forall_bytes (lead 3) (fun b0 =>
  forall_bytes Utf8.is_cont (fun b1 =>
  forall_bytes Utf8.is_cont (fun b2 => sequence_ok [b0; b1; b2]))) = true.
Proof. vm_cast_no_check (eq_refl true). Qed.

Lemma sequence_ok_1 (b0 : byte) :
  lead 1 b0 = true -> sequence_ok [b0] = true.
Proof.
  intros H0.
  exact (forall_bytes_spec (lead 1) (fun b0 => sequence_ok [b0])
                           sequences_1_ok b0 H0).
Qed.

Lemma sequence_ok_2 (b0 b1 : byte) :
  lead 2 b0 = true -> Utf8.is_cont b1 = true ->
  sequence_ok [b0; b1] = true.
Proof.
  intros H0 H1.
  exact (forall_bytes_spec2 (lead 2) Utf8.is_cont
           (fun b0 b1 => sequence_ok [b0; b1]) sequences_2_ok b0 b1 H0 H1).
Qed.

Lemma sequence_ok_3 (b0 b1 b2 : byte) :
  lead 3 b0 = true -> Utf8.is_cont b1 = true -> Utf8.is_cont b2 = true ->
  sequence_ok [b0; b1; b2] = true.
Proof.
  intros H0 H1 H2.
  exact (forall_bytes_spec3 (lead 3) Utf8.is_cont Utf8.is_cont
           (fun b0 b1 b2 => sequence_ok [b0; b1; b2]) sequences_3_ok
           b0 b1 b2 H0 H1 H2).
Qed.

(** Sequences of four bytes are too many to try one by one; the
    bytes are tried one at a time and put together by arithmetic. *)

Lemma cont_byte_facts :
  forall_bytes Utf8.is_cont (fun b =>
    Byte.eqb (Utf8.trail (Byte.to_N b)) b
    && (N.land (Byte.to_N b) 0x3F =? Byte.to_N b - 0x80)
    && (0x80 <=? Byte.to_N b) && (Byte.to_N b <? 0xC0)) = true.
Proof. vm_cast_no_check (eq_refl true). Qed.

Lemma lead4_byte_facts :
  forall_bytes (lead 4) (fun b =>
    Byte.eqb (Utf8.byte_of (N.lor 0xF0 (N.land (Byte.to_N b) 0x07))) b
    && (N.land (Byte.to_N b) 0x07 =? Byte.to_N b - 0xF0)
    && (0xF0 <=? Byte.to_N b) && (Byte.to_N b <? 0xF5)) = true.
Proof. vm_cast_no_check (eq_refl true). Qed.

Lemma cont_byte (b : byte) :
  Utf8.is_cont b = true ->
  Utf8.trail (Byte.to_N b) = b
  /\ N.land (Byte.to_N b) 0x3F = Byte.to_N b - 0x80
  /\ 0x80 <= Byte.to_N b < 0xC0.
Proof.
  intros H. pose proof (forall_bytes_spec _ _ cont_byte_facts b H) as F.
  cbv beta in F.
  apply andb_prop in F as [F F4]. apply andb_prop in F as [F F3].
  apply andb_prop in F as [F1 F2].
  apply Byte.byte_dec_bl in F1. apply N.eqb_eq in F2.
  apply N.leb_le in F3. apply N.ltb_lt in F4. auto.
Qed.

Lemma lead4_byte (b : byte) :
  lead 4 b = true ->
  Utf8.byte_of (N.lor 0xF0 (N.land (Byte.to_N b) 0x07)) = b
  /\ N.land (Byte.to_N b) 0x07 = Byte.to_N b - 0xF0
  /\ 0xF0 <= Byte.to_N b < 0xF5.
Proof.
  intros H. pose proof (forall_bytes_spec _ _ lead4_byte_facts b H) as F.
  cbv beta in F.
  apply andb_prop in F as [F F4]. apply andb_prop in F as [F F3].
  apply andb_prop in F as [F1 F2].
  apply Byte.byte_dec_bl in F1. apply N.eqb_eq in F2.
  apply N.leb_le in F3. apply N.ltb_lt in F4. auto.
Qed.

(** The low six bits and the rest of [hi * 64 + lo]. *)
Lemma low_six_bits (hi lo : N) :
  lo < 64 ->
  N.shiftr (hi * 64 + lo) 6 = hi /\ N.land (hi * 64 + lo) 0x3F = lo.
Proof.
  intros H. split.
  - rewrite N.shiftr_div_pow2. change (2 ^ 6) with 64.
    symmetry. apply (N.div_unique _ 64 hi lo); lia.
  - change 0x3F with (N.ones 6). rewrite N.land_ones. change (2 ^ 6) with 64.
    symmetry. apply (N.mod_unique _ 64 hi lo); lia.
Qed.

Lemma trail_low_six_bits (hi : N) (b : byte) :
  Utf8.is_cont b = true ->
  Utf8.trail (hi * 64 + N.land (Byte.to_N b) 0x3F) = b.
Proof.
  intros H. destruct (cont_byte b H) as (Ht & Hl & Hr).
  unfold Utf8.trail in *.
  assert (N.land (Byte.to_N b) 0x3F < 64) as Hlt by lia.
  destruct (low_six_bits hi _ Hlt) as [_ E].
  rewrite E. exact Ht.
Qed.

Lemma encode_cp_4 (b0 b1 b2 b3 : byte) :
  lead 4 b0 = true ->
  Utf8.is_cont b1 = true -> Utf8.is_cont b2 = true -> Utf8.is_cont b3 = true ->
  (Byte.to_N b0 =? 0xF0) && (Byte.to_N b1 <? 0x90) = false ->
  Utf8.encode_cp
    (N.shiftl (N.land (Byte.to_N b0) 0x07) 18
     + N.shiftl (N.land (Byte.to_N b1) 0x3F) 12
     + N.shiftl (N.land (Byte.to_N b2) 0x3F) 6
     + N.land (Byte.to_N b3) 0x3F)
  = [b0; b1; b2; b3].
Proof.
  intros H0 H1 H2 H3 Hlow.
  destruct (lead4_byte b0 H0) as (E0 & A0 & R0).
  destruct (cont_byte b1 H1) as (_ & A1 & R1).
  destruct (cont_byte b2 H2) as (_ & A2 & R2).
  destruct (cont_byte b3 H3) as (_ & A3 & R3).
  pose proof (trail_low_six_bits (N.land (Byte.to_N b0) 0x07) b1 H1) as T1.
  pose proof (trail_low_six_bits
                (N.land (Byte.to_N b0) 0x07 * 64 + N.land (Byte.to_N b1) 0x3F)
                b2 H2) as T2.
  pose proof (trail_low_six_bits
                ((N.land (Byte.to_N b0) 0x07 * 64 + N.land (Byte.to_N b1) 0x3F)
                 * 64 + N.land (Byte.to_N b2) 0x3F) b3 H3) as T3.
  set (A := N.land (Byte.to_N b0) 0x07) in *.
  set (B := N.land (Byte.to_N b1) 0x3F) in *.
  set (C := N.land (Byte.to_N b2) 0x3F) in *.
  set (D := N.land (Byte.to_N b3) 0x3F) in *.
  assert (16 <= B \/ 1 <= A) as Hbig.
  { apply andb_false_iff in Hlow as [Hl|Hl].
    - apply N.eqb_neq in Hl. right. lia.
    - apply N.ltb_ge in Hl. left. lia. }
  rewrite !N.shiftl_mul_pow2.
  change (2 ^ 18) with 262144. change (2 ^ 12) with 4096.
  change (2 ^ 6) with 64.
  replace (A * 262144 + B * 4096 + C * 64 + D)
    with (((A * 64 + B) * 64 + C) * 64 + D) by lia.
  set (cp := ((A * 64 + B) * 64 + C) * 64 + D).
  assert (N.shiftr cp 6 = (A * 64 + B) * 64 + C) as S6.
  { rewrite N.shiftr_div_pow2. change (2 ^ 6) with 64. symmetry.
    apply (N.div_unique _ 64 _ D); unfold cp; lia. }
  assert (N.shiftr cp 12 = A * 64 + B) as S12.
  { rewrite N.shiftr_div_pow2. change (2 ^ 12) with 4096. symmetry.
    apply (N.div_unique _ 4096 _ (C * 64 + D)); unfold cp; lia. }
  assert (N.shiftr cp 18 = A) as S18.
  { rewrite N.shiftr_div_pow2. change (2 ^ 18) with 262144. symmetry.
    apply (N.div_unique _ 262144 _ ((B * 64 + C) * 64 + D)); unfold cp; lia. }
  unfold Utf8.encode_cp.
  replace (cp <? 0x80) with false by (symmetry; apply N.ltb_ge; unfold cp; lia).
  replace (cp <? 0x800) with false by (symmetry; apply N.ltb_ge; unfold cp; lia).
  replace (cp <? 0x10000) with false
    by (symmetry; apply N.ltb_ge; unfold cp; lia).
  rewrite S6, S12, S18, T1, T2, E0. fold cp in T3. now rewrite T3.
Qed.

Lemma push_decoded (c : N) (d : Utf8.decoded) (t : ustring) :
  Utf8.push c d = Utf8.Decoded t ->
  exists t', d = Utf8.Decoded t' /\ t = c :: t'.
Proof.
  destruct d as [t'|a b]; cbn; intros H; [|discriminate].
  injection H as <-. eauto.
Qed.

Lemma encode_cons (c : N) (t : ustring) :
  high_surrogate c = false ->
  Utf8.encode (c :: t) = Utf8.encode_cp c ++ Utf8.encode t.
Proof.
  intros H. destruct t as [|c2 t]; cbn [Utf8.encode].
  - now rewrite app_nil_r.
  - unfold high_surrogate in H. now rewrite H.
Qed.

Lemma lead_of_length (n : nat) (b : byte) :
  Utf8.code_length (Byte.to_N b) = n -> lead n b = true.
Proof. intros H. unfold lead. rewrite H. apply Nat.eqb_refl. Qed.

Ltac sequence_fact S L :=
  unfold sequence_ok in S; cbn [Utf8.decode_from] in S; rewrite L in S.

Lemma encode_decode_from (n : nat) :
  forall (s : bytes) (pos : nat) (t : ustring),
    (length s <= n)%nat ->
    Utf8.decode_from pos s = Utf8.Decoded t ->
    forallb (fun c => negb (high_surrogate c)) t = true ->
    Utf8.encode t = s.
Proof.
  induction n as [|n IH]; intros s pos t Hlen H Hns.
  { destruct s; [|cbn in Hlen; lia]. cbn in H. injection H as <-. reflexivity. }
  destruct s as [|b0 s1]; [cbn in H; injection H as <-; reflexivity|].
  cbn [Utf8.decode_from] in H. cbn [length] in Hlen.
  destruct (Utf8.code_length (Byte.to_N b0)) as [|[|[|[|[|k]]]]] eqn:L;
    try discriminate.
  - apply push_decoded in H as (t' & H & ->).
    cbn [forallb] in Hns. apply andb_prop in Hns as [Hc Hns].
    apply negb_true_iff in Hc.
    pose proof (sequence_ok_1 b0 (lead_of_length _ _ L)) as S.
    sequence_fact S L. cbn [Utf8.push] in S. apply bytes_eqb_eq in S.
    rewrite (encode_cons _ _ Hc), S, (IH s1 _ t' ltac:(lia) H Hns).
    reflexivity.
  - destruct s1 as [|b1 s2]; [discriminate|].
    destruct (Utf8.is_cont b1) eqn:C1; [|discriminate].
    apply push_decoded in H as (t' & H & ->).
    cbn [forallb] in Hns. apply andb_prop in Hns as [Hc Hns].
    apply negb_true_iff in Hc.
    pose proof (sequence_ok_2 b0 b1 (lead_of_length _ _ L) C1) as S.
    sequence_fact S L. rewrite C1 in S. cbn [Utf8.push] in S.
    apply bytes_eqb_eq in S. cbn [length] in Hlen.
    rewrite (encode_cons _ _ Hc), S, (IH s2 _ t' ltac:(lia) H Hns).
    reflexivity.
  - destruct s1 as [|b1 [|b2 s3]]; try discriminate.
    match type of H with (if ?c then _ else _) = _ => destruct c eqn:C end;
      [discriminate|].
    apply push_decoded in H as (t' & H & ->).
    cbn [forallb] in Hns. apply andb_prop in Hns as [Hc Hns].
    apply negb_true_iff in Hc.
    pose proof C as C'.
    apply orb_false_elim in C' as [C' _]. apply orb_false_elim in C' as [C1 C2].
    apply negb_false_iff in C1, C2.
    pose proof (sequence_ok_3 b0 b1 b2 (lead_of_length _ _ L) C1 C2) as S.
    sequence_fact S L. rewrite C in S. cbn [Utf8.push] in S.
    apply bytes_eqb_eq in S. cbn [length] in Hlen.
    rewrite (encode_cons _ _ Hc), S, (IH s3 _ t' ltac:(lia) H Hns).
    reflexivity.
  - destruct s1 as [|b1 [|b2 [|b3 s4]]]; try discriminate.
    match type of H with (if ?c then _ else _) = _ => destruct c eqn:C end;
      [discriminate|].
    apply push_decoded in H as (t' & H & ->).
    cbn [forallb] in Hns. apply andb_prop in Hns as [Hc Hns].
    apply negb_true_iff in Hc.
    pose proof C as C'.
    apply orb_false_elim in C' as [C' _]. apply orb_false_elim in C' as [C' _].
    apply orb_false_elim in C' as [C' C3]. apply orb_false_elim in C' as [C1 C2].
    apply negb_false_iff in C1, C2, C3.
    apply orb_false_elim in C as [C C4]. apply orb_false_elim in C as [_ C0].
    pose proof (encode_cp_4 b0 b1 b2 b3 (lead_of_length _ _ L) C1 C2 C3 C0)
      as S.
    cbn [length] in Hlen.
    rewrite (encode_cons _ _ Hc), S, (IH s4 _ t' ltac:(lia) H Hns).
    reflexivity.
Qed.

(** Text that was decoded from [s] and holds no high surrogate is
    encoded as [s] again. *)
Lemma encode_decode (s : bytes) (t : ustring) :
  Utf8.decode s = Ok t ->
  forallb (fun c => negb (high_surrogate c)) t = true ->
  Utf8.encode t = s.
Proof.
  unfold Utf8.decode. intros H Hns.
  destruct (Utf8.decode_from 0 s) as [t'|a b] eqn:E; [|discriminate].
  injection H as ->. exact (encode_decode_from (length s) s 0 t (le_n _) E Hns).
Qed.

(** C10.  A field that decodes without error is returned as its
    decoding, with nothing replaced: a row all of whose fields decode
    is sanitized to the row of their decodings, which (high
    surrogates apart) are encoded as the very bytes of the input
    again; and a field of ASCII bytes comes back as the same
    character codes. *)
Theorem sanitize_unicode_identity_on_valid
        (csv_row : list bytes) (texts : list ustring) :
  (Forall2 (fun b t => Utf8.decode b = Ok t) csv_row texts ->
   sanitize_unicode csv_row = Ok texts
   /\ (Forall (fun t => forallb (fun c => negb (high_surrogate c)) t = true)
              texts ->
       map Utf8.encode texts = csv_row))
  /\ (Forall is_ascii csv_row ->
      sanitize_unicode csv_row = Ok (map (map Byte.to_N) csv_row)).
Proof.
  split.
  - intros H. split; [now apply sanitize_unicode_valid|].
    induction H as [|b t row ts Hb _ IH]; intros Hns; [reflexivity|].
    inversion Hns as [|? ? Ht Hts]; subst. cbn [map].
    now rewrite (encode_decode _ _ Hb Ht), (IH Hts).
  - intros H. apply sanitize_unicode_valid.
    induction H as [|b row Hb _ IH]; cbn; constructor; auto.
    now apply decode_ascii.
Qed.

Lemma sanitize_unicode_identity_on_valid_witness :
  (sanitize_unicode [[xc3; xa9]; [x41]] = Ok [[0xE9]; [0x41]]
   /\ map Utf8.encode [[0xE9]; [0x41]] = [[xc3; xa9]; [x41]])
  /\ sanitize_unicode sample_row = Ok (map (map Byte.to_N) sample_row).
Proof.
  destruct (sanitize_unicode_identity_on_valid
              [[xc3; xa9]; [x41]] [[0xE9]; [0x41]]) as [H1 _].
  destruct (sanitize_unicode_identity_on_valid
              sample_row (map (map Byte.to_N) sample_row)) as [_ H2].
  split.
  - destruct H1 as [Ha Hb]; [repeat constructor|].
    split; [exact Ha|]. apply Hb. repeat constructor.
  - apply H2. repeat constructor.
Defined.

(** C2.  A field with two invalid spans is not repaired: the handler
    decodes the bytes after the first span strictly, so the second
    span raises out of the sanitizer and ends the run; a field with
    one invalid span is repaired. *)
Theorem sanitize_unicode_second_span_raises :
  sanitize_unicode [[xff; x41; xff]] = Raise (UnicodeDecodeError 1 2)
  /\ process_csv_input [sample_with 7 [xff; x41; xff]; sample_row]
     = (Channels [] [], Raise (UnicodeDecodeError 1 2))
  /\ sanitize_unicode [[x41; xff; x42]] = Ok [[0x41; REPLACEMENT; 0x42]].
Proof. by_evaluation. Qed.

(** ** The record formatter *)

(** C8.  A field is wrapped in quote characters exactly when it
    contains the delimiter, and its content is copied as it is in both
    cases: nothing inside is escaped. *)
Theorem maybe_quote_iff_delimiter (x : ustring) :
  (In (chr ",") x -> maybe_quote x = [34] ++ x ++ [34])
  /\ (~ In (chr ",") x -> maybe_quote x = x).
Proof.
  unfold maybe_quote.
  destruct (existsb (N.eqb (chr ",")) x) eqn:E.
  - split; [reflexivity|]. intros H. exfalso. apply H.
    apply existsb_exists in E as (c & Hc & Heq).
    apply N.eqb_eq in Heq. now subst.
  - split; [|reflexivity]. intros H. exfalso.
    assert (existsb (N.eqb (chr ",")) x = true) as E'.
    { apply existsb_exists. exists (chr ","). split; [assumption|apply N.eqb_refl]. }
    congruence.
Qed.

Lemma maybe_quote_iff_delimiter_witness :
  maybe_quote (u "123 4th St, Anywhere, AA")
  = [34] ++ u "123 4th St, Anywhere, AA" ++ [34]
  /\ maybe_quote [34; 97; 34] = [34; 97; 34].
Proof.
  split.
  - apply (maybe_quote_iff_delimiter (u "123 4th St, Anywhere, AA")).
    vm_compute. intuition.
  - apply (maybe_quote_iff_delimiter [34; 97; 34]).
    vm_compute. intuition discriminate.
Defined.

(** On ASCII text the postal code is padded on the left to five
    characters and never shortened. *)
Lemma format_zip_ascii (x : ustring) :
  is_ascii_text x ->
  format_zip x = Ok (repeat (chr "0") (5 - length x) ++ x).
Proof.
  intros H. unfold format_zip.
  destruct (existsb _ _) eqn:E; [|reflexivity].
  apply existsb_exists in E as (c & Hc & Hge).
  apply N.leb_le in Hge. apply in_app_or in Hc as [Hc|Hc].
  - apply repeat_spec in Hc. subst c. vm_compute in Hge. now destruct Hge.
  - unfold is_ascii_text in H. rewrite Forall_forall in H.
    specialize (H _ Hc). lia.
Qed.

Lemma format_zip_long (x : ustring) :
  is_ascii_text x -> (5 <= length x)%nat -> format_zip x = Ok x.
Proof.
  intros H Hl. rewrite (format_zip_ascii _ H).
  replace (5 - length x)%nat with 0%nat by lia. reflexivity.
Qed.

(** C9.  A postal code with a character outside ASCII is not padded:
    formatting it raises, and the exception ends the run.  The field
    may hold a valid character or the replacement character of a
    repaired byte. *)
Theorem format_zip_non_ascii_raises :
  format_zip [0xE9] = Raise UnicodeEncodeError
  /\ process_csv_input [sample_with 2 [xc3; xa9]; sample_row]
     = (Channels [] [], Raise UnicodeEncodeError)
  /\ process_csv_input [sample_with 2 [x31; xff]; sample_row]
     = (Channels [] [], Raise UnicodeEncodeError).
Proof. by_evaluation. Qed.

(** ** The channels are only appended to *)

Lemma framed_lift {A} (r : result A) : framed (lift r).
Proof. intros out err. cbn. now rewrite !app_nil_r. Qed.

Lemma framed_ret {A} (a : A) : framed (ret a).
Proof. intros out err. cbn. now rewrite !app_nil_r. Qed.

Lemma framed_utf8_print (row : list ustring) : framed (utf8_print row).
Proof. intros out err. cbn. now rewrite !app_nil_r. Qed.

Lemma framed_stderr_write (d : diagnostic) : framed (stderr_write d).
Proof. intros out err. cbn. now rewrite !app_nil_r. Qed.

Lemma framed_bind {A B} (m : io A) (f : A -> io B) :
  framed m -> (forall a, framed (f a)) -> framed (iobind m f).
Proof.
  intros Hm Hf out err. unfold iobind. rewrite Hm.
  destruct (m (Channels [] [])) as [[o1 e1] [a|ex]]; cbn [stdout stderr].
  - rewrite Hf, (Hf a o1 e1).
    destruct (f a (Channels [] [])) as [[o2 e2] r]; cbn [stdout stderr].
    now rewrite !app_assoc.
  - reflexivity.
Qed.

Create HintDb framed.

#[local] Hint Resolve framed_lift framed_ret framed_utf8_print
  framed_stderr_write : framed.

Ltac framed_step :=
  match goal with
  | |- framed (iobind _ _) => apply framed_bind; [|intros ?]
  | |- framed (let '(_, _) := ?p in _) => destruct p
  | |- framed (if ?b then _ else _) => destruct b
  | |- framed _ => solve [auto with framed]
  end.

Lemma framed_process_data_row (csv_row : list bytes) (u_csv_row : list ustring) :
  framed (process_data_row csv_row u_csv_row).
Proof. unfold process_data_row. repeat framed_step. Qed.

Lemma framed_process_row (csv_row : list bytes) : framed (process_row csv_row).
Proof.
  unfold process_row. repeat framed_step. apply framed_process_data_row.
Qed.

Lemma framed_process_rows (reader : list (list bytes)) :
  framed (process_rows reader).
Proof.
  induction reader as [|r rs IH]; cbn [process_rows].
  - apply framed_ret.
  - apply framed_bind; [apply framed_process_row|intros _; exact IH].
Qed.

(** What is written to the error channel has no effect on the output
    channel or on how the run ends. *)
Lemma process_rows_stderr_irrelevant (reader : list (list bytes))
      (out : bytes) (err err' : list diagnostic) :
  stdout (fst (process_rows reader (Channels out err')))
  = stdout (fst (process_rows reader (Channels out err)))
  /\ snd (process_rows reader (Channels out err'))
     = snd (process_rows reader (Channels out err)).
Proof.
  rewrite (framed_process_rows reader out err').
  rewrite (framed_process_rows reader out err).
  destruct (process_rows reader (Channels [] [])) as [[o e] r].
  split; reflexivity.
Qed.

(** ** The orchestrator *)

Lemma sanitize_unicode_app (l1 l2 : list bytes) :
  sanitize_unicode (l1 ++ l2) =
  (t1 <- sanitize_unicode l1 ;; t2 <- sanitize_unicode l2 ;; Ok (t1 ++ t2)).
Proof.
  induction l1 as [|b l1 IH]; cbn.
  - now destruct (sanitize_unicode l2).
  - destruct (sanitize_element b); [|reflexivity]. cbn. rewrite IH.
    destruct (sanitize_unicode l1); [|reflexivity]. cbn.
    now destruct (sanitize_unicode l2).
Qed.

(** C4.  The sample record of the specification yields exactly the
    sample output line; the total is the sum of the two parsed
    durations, and the seventh input field is never looked at beyond
    its encoding repair: whatever bytes it holds, the line is the
    same whenever the repair of that field succeeds. *)
Theorem sample_row_end_to_end :
  process_csv_input [sample_row] = (Channels sample_output [], Ok tt)
  /\ forall seventh : bytes,
      process_csv_input [sample_with 6 seventh] =
      match sanitize_element seventh with
      | Ok _ => (Channels sample_output [], Ok tt)
      | Raise e => (Channels [] [], Raise e)
      end.
Proof.
  split; [vm_compute; reflexivity|].
  intros seventh.
  unfold process_csv_input. rewrite process_rows_cons.
  unfold process_row, iobind, lift, sample_with.
  rewrite sanitize_unicode_app.
  destruct (sanitize_unicode (firstn 6 sample_row)) as [t1|e1] eqn:E1;
    vm_compute in E1; [|discriminate]. injection E1 as <-.
  cbn [rbind sanitize_unicode].
  destruct (sanitize_element seventh) as [t|e]; [|reflexivity].
  cbn [rbind].
  destruct (sanitize_unicode (skipn 7 sample_row)) as [t2|e2] eqn:E2;
    vm_compute in E2; [|discriminate]. injection E2 as <-.
  vm_compute. reflexivity.
Qed.

(** C3, as the specification states it, fails: a second record whose
    first field is the header literal is emitted verbatim again,
    whereas the machine with a [HEADER_SEEN] flag would treat it as a
    data row (and drop it, its timestamp being unparsable). *)
Lemma second_header_row_emitted_verbatim :
  process_csv_input [header_row; header_row]
  = (Channels (header_output ++ header_output) [], Ok tt)
  /\ HeaderOnce.process_csv_input [header_row; header_row]
     = (Channels header_output
                 [Warning (Some (ValueError (NoMatch (u "Timestamp")))) header_row],
        Ok tt)
  /\ process_csv_input [header_row; header_row]
     <> HeaderOnce.process_csv_input [header_row; header_row].
Proof.
  assert (process_csv_input [header_row; header_row]
          = (Channels (header_output ++ header_output) [], Ok tt)) as H1
      by (vm_compute; reflexivity).
  assert (HeaderOnce.process_csv_input [header_row; header_row]
          = (Channels header_output
                      [Warning (Some (ValueError (NoMatch (u "Timestamp"))))
                               header_row], Ok tt)) as H2
      by (vm_compute; reflexivity).
  split; [exact H1|]. split; [exact H2|].
  rewrite H1, H2. intros H. discriminate H.
Qed.

(** C3, amended.  The orchestrator keeps no header state: wherever a
    record whose sanitized first field is the header literal occurs
    in the input, it is emitted verbatim (its sanitized fields joined
    by the delimiter, then a newline) and the run goes on with the
    next record. *)
Theorem header_rows_always_pass_through
        (pre rest : list (list bytes)) (csv_row : list bytes)
        (u_csv_row : list ustring) (w w' : channels) :
  process_rows pre w = (w', Ok tt) ->
  sanitize_unicode csv_row = Ok u_csv_row ->
  nth_error u_csv_row 0 = Some (u "Timestamp") ->
  process_rows (pre ++ csv_row :: rest) w =
  process_rows rest
    (Channels (stdout w' ++ Utf8.encode (join u_csv_row) ++ [NEWLINE])
              (stderr w')).
Proof.
  intros Hpre Hs H0.
  rewrite (process_rows_app _ _ _ _ Hpre), process_rows_cons.
  now rewrite (process_row_header _ _ _ Hs H0).
Qed.

Lemma header_rows_always_pass_through_witness :
  process_rows ([header_row; sample_row] ++ header_row :: [sample_row])
               (Channels [] [])
  = process_rows [sample_row]
      (Channels ((header_output ++ sample_output)
                   ++ Utf8.encode (join (map (map Byte.to_N) header_row))
                   ++ [NEWLINE]) []).
Proof.
  apply (header_rows_always_pass_through
           [header_row; sample_row] [sample_row] header_row
           (map (map Byte.to_N) header_row)
           (Channels [] []) (Channels (header_output ++ sample_output) []));
    vm_compute; reflexivity.
Defined.




(** C1.  A malformed duration is not row-local: the exception of the
    duration parser is not caught, so the run ends at that record
    with nothing written for it and the records after it unread,
    whether a component is not a number or a component is missing.
    The sibling path for timestamps does drop the row and go on. *)
Theorem duration_error_ends_run :
  process_csv_input [sample_with 4 (bytes_of "1:xx:32"); sample_row]
  = (Channels [] [], Raise (ValueError (InvalidLiteral (u "xx"))))
  /\ process_csv_input [sample_with 5 (bytes_of "1:32"); sample_row]
     = (Channels [] [], Raise IndexError)
  /\ process_csv_input [sample_with 0 (bytes_of "not-a-date"); sample_row]
     = (Channels sample_output
          [Warning (Some (ValueError (NoMatch (u "not-a-date"))))
                   (sample_with 0 (bytes_of "not-a-date"))],
        Ok tt).
Proof. by_evaluation. Qed.

(** ** Records with missing fields *)

Lemma iso_est_date_success (ts : ustring) (dt : Datetime.t) :
  Datetime.strptime ts = Ok dt ->
  exists c s, iso_est_date ts = Ok (Some (c :: s), None).
Proof.
  intros H. unfold iso_est_date. rewrite H. unfold Datetime.isoformat.
  destruct (zero_pad 4 _) as [|c s]; [change (u "-") with [45]|];
    cbn [app]; eauto.
Qed.

Ltac io_step :=
  cbv beta iota delta [iobind lift index nth_error].

(** C7, as stated, fails: a record with fewer than eight fields does
    not always end the run.  One whose only field is the header
    literal is printed, and one whose first field is not a timestamp
    is dropped with a diagnostic; the run goes on in both cases. *)
Lemma short_record_without_index_error :
  (length [bytes_of "Timestamp"] < 8)%nat
  /\ process_csv_input [[bytes_of "Timestamp"]; sample_row]
     = (Channels (bytes_of "Timestamp" ++ [NEWLINE] ++ sample_output) [], Ok tt)
  /\ process_csv_input [[bytes_of "not-a-date"]; sample_row]
     = (Channels sample_output
          [Warning (Some (ValueError (NoMatch (u "not-a-date"))))
                   [bytes_of "not-a-date"]],
        Ok tt)
  /\ ~ (forall csv_row : list bytes,
           (length csv_row < 8)%nat ->
           exists w, process_csv_input [csv_row] = (w, Raise IndexError)).
Proof.
  split; [cbn; lia|].
  split; [vm_compute; reflexivity|].
  split; [vm_compute; reflexivity|].
  intros H. destruct (H [bytes_of "Timestamp"]) as [w Hw]; [cbn; lia|].
  vm_compute in Hw. discriminate Hw.
Qed.

(** C7, amended.  A record with fewer than eight fields that is
    empty, or whose first field is not the header literal and is a
    timestamp [strptime] accepts, ends the whole run with an uncaught
    exception and nothing written for it.  The exception is the
    indexing error of the first missing field whenever the fields
    that are present can be formatted. *)
Theorem short_record_ends_run
        (csv_row : list bytes) (u_csv_row : list ustring)
        (rest : list (list bytes)) (w : channels) :
  (length csv_row < 8)%nat ->
  sanitize_unicode csv_row = Ok u_csv_row ->
  match u_csv_row with
  | [] => True
  | ts :: _ => ts <> u "Timestamp" /\ exists dt, Datetime.strptime ts = Ok dt
  end ->
  exists e,
    process_rows (csv_row :: rest) w = (w, Raise e)
    /\ (present_fields_ok u_csv_row -> e = IndexError).
Proof.
  intros Hlen Hs Hts. rewrite process_rows_cons.
  rewrite <- (sanitize_unicode_length _ _ Hs) in Hlen.
  destruct u_csv_row as [|f0 r].
  { exists IndexError. unfold process_row. io_step. rewrite Hs. io_step.
    split; [reflexivity|auto]. }
  destruct Hts as [Hne [dt Hdt]].
  rewrite (process_row_data _ _ f0 _ Hs eq_refl Hne).
  destruct (iso_est_date_success _ _ Hdt) as (c & s & Hiso).
  unfold process_data_row. io_step. rewrite Hiso. cbv beta iota delta [is_falsy].
  destruct r as [|f1 r]; [exists IndexError; split; [reflexivity|auto]|].
  destruct r as [|f2 r]; [exists IndexError; split; [reflexivity|auto]|].
  destruct (format_zip f2) as [z5|ez] eqn:Ez.
  2:{ exists ez. split; [reflexivity|]. intros (Hz & _).
      rewrite (format_zip_ascii _ (Hz f2 eq_refl)) in Ez. discriminate. }
  destruct r as [|f3 r]; [exists IndexError; split; [reflexivity|auto]|].
  destruct r as [|f4 r]; [exists IndexError; split; [reflexivity|auto]|].
  destruct (duration_to_fps f4) as [t4|e4] eqn:E4.
  2:{ exists e4. split; [reflexivity|]. intros (_ & H4 & _).
      destruct (H4 f4 eq_refl) as [td Htd]. congruence. }
  destruct r as [|f5 r]; [exists IndexError; split; [reflexivity|auto]|].
  destruct (duration_to_fps f5) as [t5|e5] eqn:E5.
  2:{ exists e5. split; [reflexivity|]. intros (_ & _ & H5 & _).
      destruct (H5 f5 eq_refl) as [td Htd]. congruence. }
  destruct (Timedelta.add t4 t5) as [tot|eadd] eqn:Eadd.
  2:{ exists eadd. split; [reflexivity|]. intros (_ & _ & _ & Hadd).
      destruct (Hadd f4 f5 t4 t5 eq_refl eq_refl E4 E5) as [t Ht]. congruence. }
  destruct r as [|f6 r]; [exists IndexError; split; [reflexivity|auto]|].
  destruct r as [|f7 r]; [exists IndexError; split; [reflexivity|auto]|].
  cbn in Hlen. lia.
Qed.

Lemma short_record_ends_run_witness :
  exists e,
    process_rows (firstn 7 sample_row :: [sample_row]) (Channels [] [])
    = (Channels [] [], Raise e)
    /\ (present_fields_ok (map (map Byte.to_N) (firstn 7 sample_row)) ->
        e = IndexError).
Proof.
  apply (short_record_ends_run
           (firstn 7 sample_row) (map (map Byte.to_N) (firstn 7 sample_row))
           [sample_row] (Channels [] [])).
  - cbn. lia.
  - vm_compute. reflexivity.
  - split.
    + vm_compute. discriminate.
    + eexists. vm_compute. reflexivity.
Defined.

(** ** The duration parser *)

Lemma split_without_sep (sep : N) (a : ustring) :
  forallb (fun c => negb (c =? sep)) a = true -> split sep a = [a].
Proof.
  induction a as [|c a IH]; cbn; [reflexivity|].
  intros H. apply andb_prop in H as [Hc Ha].
  apply negb_true_iff in Hc. rewrite Hc, (IH Ha). reflexivity.
Qed.

Lemma split_app_sep (sep : N) (a b : ustring) :
  forallb (fun c => negb (c =? sep)) a = true ->
  split sep (a ++ sep :: b) = a :: split sep b.
Proof.
  induction a as [|c a IH]; cbn.
  - intros _. now rewrite N.eqb_refl.
  - intros H. apply andb_prop in H as [Hc Ha].
    apply negb_true_iff in Hc. rewrite Hc, (IH Ha). reflexivity.
Qed.

Lemma digits_without (sep : N) (s : ustring) :
  is_digit sep = false ->
  forallb is_digit s = true ->
  forallb (fun c => negb (c =? sep)) s = true.
Proof.
  intros Hsep H. rewrite forallb_forall in *. intros c Hc.
  specialize (H c Hc). apply negb_true_iff, N.eqb_neq. intros ->. congruence.
Qed.

Lemma digit_not_space (c : N) : is_digit c = true -> is_space c = false.
Proof.
  unfold is_digit, is_space. intros H.
  apply andb_prop in H as [H1 H2]. apply N.leb_le in H1, H2.
  apply orb_false_iff. split.
  - apply N.eqb_neq. lia.
  - apply andb_false_iff. right. apply N.leb_gt. lia.
Qed.

Lemma lstrip_digits (s : ustring) : forallb is_digit s = true -> lstrip s = s.
Proof.
  destruct s as [|c s]; cbn; [reflexivity|].
  intros H. apply andb_prop in H as [Hc _].
  now rewrite (digit_not_space _ Hc).
Qed.

Lemma strip_digits (s : ustring) : forallb is_digit s = true -> strip s = s.
Proof.
  intros H. unfold strip. rewrite (lstrip_digits _ H).
  rewrite lstrip_digits; [apply rev_involutive|].
  rewrite forallb_forall in *. intros c Hc. apply H. now apply in_rev.
Qed.

(** [int] reads a run of digits as the number it denotes. *)
Lemma py_int_digits (s : ustring) :
  digit_string s -> py_int s = Ok (digits_value 0 s).
Proof.
  intros [Hne H]. unfold py_int. rewrite (strip_digits _ H).
  destruct s as [|c ds]; [congruence|].
  pose proof H as Hall. cbn in H. apply andb_prop in H as [Hc _].
  unfold is_digit in Hc. apply andb_prop in Hc as [H1 H2].
  apply N.leb_le in H1, H2.
  replace (c =? 45) with false by (symmetry; apply N.eqb_neq; lia).
  replace (c =? 43) with false by (symmetry; apply N.eqb_neq; lia).
  rewrite Hall. now rewrite Z.mul_1_l.
Qed.

Lemma digits_value_nonneg (s : ustring) (acc : Z) :
  (0 <= acc)%Z -> (0 <= digits_value acc s)%Z.
Proof.
  revert acc. induction s as [|c s IH]; cbn [digits_value]; intros acc H;
    [assumption|].
  apply IH. lia.
Qed.

Lemma to_microseconds_of_microseconds (us : Z) (td : Timedelta.t) :
  Timedelta.of_microseconds us = Ok td -> Timedelta.to_microseconds td = us.
Proof.
  unfold Timedelta.of_microseconds, Timedelta.to_microseconds.
  destruct (_ && _); [|discriminate]. intros H. injection H as <-.
  cbn [Timedelta.days Timedelta.seconds Timedelta.microseconds].
  unfold Timedelta.us_per_day.
  pose proof (Z.div_mod us 86400000000 ltac:(lia)) as H1.
  pose proof (Z.div_mod (us mod 86400000000) 1000000 ltac:(lia)) as H2.
  assert ((us mod 86400000000) mod 1000000 = us mod 1000000)%Z as H3.
  { apply Z.mod_mod_divide. exists 86400%Z. reflexivity. }
  lia.
Qed.

Lemma of_microseconds_in_range (us : Z) :
  (0 <= us)%Z -> (us / Timedelta.us_per_day <= Timedelta.max_days)%Z ->
  exists td, Timedelta.of_microseconds us = Ok td.
Proof.
  intros H0 H. unfold Timedelta.of_microseconds.
  assert (0 <= us / Timedelta.us_per_day)%Z
    by (apply Z.div_pos; [assumption|reflexivity]).
  replace (_ && _) with true; [eauto|].
  symmetry. apply andb_true_iff. unfold Timedelta.max_days in *.
  split; apply Z.leb_le; lia.
Qed.

Lemma of_microseconds_overflow (us : Z) :
  (Timedelta.max_days < us / Timedelta.us_per_day)%Z ->
  Timedelta.of_microseconds us = Raise OverflowError.
Proof.
  intros H. unfold Timedelta.of_microseconds.
  replace (_ && _) with false; [reflexivity|].
  symmetry. apply andb_false_iff. right. apply Z.leb_gt. assumption.
Qed.

(** What [duration_to_fps] computes on a well-formed duration. *)
Lemma duration_to_fps_digits (h m s : ustring) (f : option ustring) :
  digit_string h -> digit_string m -> digit_string s ->
  match f with Some x => digit_string x | None => True end ->
  duration_to_fps (duration_text h m s f)
  = Timedelta.of_microseconds (duration_microseconds h m s f).
Proof.
  intros Hh Hm Hs Hf.
  assert (is_digit (chr ":") = false) as Hc by reflexivity.
  assert (is_digit (chr ".") = false) as Hd by reflexivity.
  unfold duration_to_fps, duration_text.
  rewrite split_app_sep by (apply digits_without; [exact Hc|apply Hh]).
  rewrite split_app_sep by (apply digits_without; [exact Hc|apply Hm]).
  destruct f as [x|].
  - rewrite (split_without_sep (chr ":")).
    2:{ rewrite forallb_app. apply andb_true_iff. split.
        - apply digits_without; [exact Hc|apply Hs].
        - cbn [forallb]. apply andb_true_iff. split; [reflexivity|].
          apply digits_without; [exact Hc|apply Hf]. }
    cbv beta iota delta [index nth_error rbind].
    rewrite split_app_sep by (apply digits_without; [exact Hd|apply Hs]).
    rewrite split_without_sep by (apply digits_without; [exact Hd|apply Hf]).
    cbv beta iota delta [length Nat.eqb index nth_error rbind].
    rewrite !py_int_digits by assumption.
    unfold Timedelta.new, duration_microseconds. f_equal. lia.
  - rewrite app_nil_r.
    rewrite (split_without_sep (chr ":"))
      by (apply digits_without; [exact Hc|apply Hs]).
    cbv beta iota delta [index nth_error rbind].
    rewrite split_without_sep by (apply digits_without; [exact Hd|apply Hs]).
    cbv beta iota delta [length Nat.eqb index nth_error rbind].
    rewrite !py_int_digits by assumption.
    unfold Timedelta.new, duration_microseconds. f_equal. lia.
Qed.

Lemma duration_microseconds_nonneg (h m s : ustring) (f : option ustring) :
  (0 <= duration_microseconds h m s f)%Z.
Proof.
  unfold duration_microseconds.
  pose proof (digits_value_nonneg h 0 ltac:(lia)).
  pose proof (digits_value_nonneg m 0 ltac:(lia)).
  pose proof (digits_value_nonneg s 0 ltac:(lia)).
  assert (0 <= match f with Some x => digits_value 0 x | None => 0 end)%Z
    by (destruct f; [apply digits_value_nonneg|]; lia).
  lia.
Qed.

(** *** Decimal numerals *)

Lemma uint_digits_are_digits (d : Decimal.uint) :
  forallb is_digit (uint_digits d) = true.
Proof. induction d; cbn [uint_digits forallb]; try rewrite IHd; reflexivity. Qed.

Lemma digits_value_of_uint_acc (d : Decimal.uint) (acc : positive) :
  digits_value (Z.pos acc) (uint_digits d) = Z.pos (Pos.of_uint_acc d acc).
Proof.
  revert acc.
  induction d; intros acc; cbn [uint_digits digits_value Pos.of_uint_acc];
    [reflexivity|..]; rewrite <- IHd; f_equal; lia.
Qed.

Lemma digits_value_of_uint (d : Decimal.uint) :
  digits_value 0 (uint_digits d) = Z.of_N (N.of_uint d).
Proof.
  unfold N.of_uint.
  induction d; cbn [uint_digits digits_value Pos.of_uint];
    [reflexivity|exact IHd|..]; apply digits_value_of_uint_acc.
Qed.

(** The digits of a number denote it. *)
Lemma digits_value_decimal (n : Z) :
  (0 <= n)%Z -> digits_value 0 (decimal n) = n.
Proof.
  intros H. unfold decimal.
  rewrite digits_value_of_uint, DecimalN.Unsigned.of_to. lia.
Qed.

Lemma decimal_digit_string (n : Z) : digit_string (decimal n).
Proof.
  split; [|apply uint_digits_are_digits].
  unfold decimal. destruct (Z.to_N n) as [|p]; [discriminate|].
  cbn [N.to_uint]. pose proof (DecimalPos.Unsigned.to_uint_nonnil p) as H.
  destruct (Pos.to_uint p); [congruence|discriminate..].
Qed.

Lemma digits_value_zeros (k : nat) (s : ustring) :
  digits_value 0 (repeat 48 k ++ s) = digits_value 0 s.
Proof. induction k as [|k IH]; [reflexivity|exact IH]. Qed.

Lemma zero_pad_digit_string (w : nat) (n : Z) : digit_string (zero_pad w n).
Proof.
  destruct (decimal_digit_string n) as [Hne Hd]. unfold zero_pad. split.
  - intros H. apply app_eq_nil in H as [_ H]. contradiction.
  - rewrite forallb_app, Hd, andb_true_r.
    apply forallb_forall. intros c Hc. apply repeat_spec in Hc. now subst.
Qed.

Lemma digits_value_zero_pad (w : nat) (n : Z) :
  (0 <= n)%Z -> digits_value 0 (zero_pad w n) = n.
Proof.
  intros H. unfold zero_pad.
  now rewrite digits_value_zeros, digits_value_decimal.
Qed.

(** *** The claim on durations *)

(** C5, as stated, fails: the hours are not unbounded.  The parsed
    value is a [timedelta], which holds fewer than a thousand million
    days; a duration of 24000000000 hours raises an overflow error. *)
Lemma duration_hours_overflow :
  duration_string 24000000000 0 0 None = u "24000000000:00:00"
  /\ duration_to_fps (u "24000000000:00:00") = Raise OverflowError
  /\ ~ (forall H : Z,
           (0 <= H)%Z ->
           exists td,
             duration_to_fps (duration_string H 0 0 None) = Ok td
             /\ Timedelta.to_microseconds td = (H * 3600 * 1000000)%Z).
Proof.
  split; [vm_compute; reflexivity|].
  split; [vm_compute; reflexivity|].
  intros H. destruct (H 24000000000%Z ltac:(lia)) as (td & Htd & _).
  vm_compute in Htd. discriminate Htd.
Qed.

(** C5, amended.  For hours [H] of any size (24 and more included),
    minutes and seconds of two digits and, when present, three digits
    of milliseconds, the parser returns the exact elapsed time
    [H*3600 + M*60 + S + fff/1000] seconds, here counted in
    microseconds, provided the whole span is within the range of
    [timedelta] (at most 999999999 full days). *)
Theorem duration_to_fps_exact (H M S : Z) (F : option Z) :
  (0 <= H)%Z -> (0 <= M < 100)%Z -> (0 <= S < 100)%Z ->
  match F with Some x => (0 <= x < 1000)%Z | None => True end ->
  let us :=
    (((H * 3600 + M * 60 + S) * 1000
      + match F with Some x => x | None => 0 end) * 1000)%Z in
  (us / Timedelta.us_per_day <= Timedelta.max_days)%Z ->
  exists td,
    duration_to_fps (duration_string H M S F) = Ok td
    /\ Timedelta.to_microseconds td = us.
Proof.
  intros HH HM HS HF us Hrange. unfold duration_string.
  rewrite duration_to_fps_digits;
    try solve [apply decimal_digit_string | apply zero_pad_digit_string].
  2:{ destruct F; cbn [option_map]; [apply zero_pad_digit_string|exact I]. }
  assert (duration_microseconds (decimal H) (zero_pad 2 M) (zero_pad 2 S)
                                (option_map (zero_pad 3) F) = us) as Hus.
  { unfold duration_microseconds, us.
    rewrite digits_value_decimal, !digits_value_zero_pad by lia.
    destruct F as [x|]; cbn [option_map];
      [rewrite digits_value_zero_pad by lia|]; reflexivity. }
  rewrite Hus.
  destruct (of_microseconds_in_range us) as [td Htd].
  - rewrite <- Hus. apply duration_microseconds_nonneg.
  - exact Hrange.
  - exists td. split; [exact Htd|].
    now apply to_microseconds_of_microseconds.
Qed.

Lemma duration_to_fps_exact_witness :
  exists td,
    duration_to_fps (duration_string 100 30 15 (Some 500%Z)) = Ok td
    /\ Timedelta.to_microseconds td = 361815500000%Z.
Proof.
  apply (duration_to_fps_exact 100 30 15 (Some 500%Z)).
  - lia.
  - lia.
  - lia.
  - lia.
  - vm_compute. discriminate.
Defined.

(** Beyond that range the parser raises. *)
Lemma duration_to_fps_overflow (h m s : ustring) (f : option ustring) :
  digit_string h -> digit_string m -> digit_string s ->
  match f with Some x => digit_string x | None => True end ->
  (Timedelta.max_days < duration_microseconds h m s f / Timedelta.us_per_day)%Z ->
  duration_to_fps (duration_text h m s f) = Raise OverflowError.
Proof.
  intros Hh Hm Hs Hf Hbig.
  rewrite duration_to_fps_digits by assumption.
  now apply of_microseconds_overflow.
Qed.

(** Any runs of digits will do as components, whatever their
    lengths. *)
Lemma duration_to_fps_digits_exact (h m s : ustring) (f : option ustring) :
  digit_string h -> digit_string m -> digit_string s ->
  match f with Some x => digit_string x | None => True end ->
  (duration_microseconds h m s f / Timedelta.us_per_day <= Timedelta.max_days)%Z ->
  exists td,
    duration_to_fps (duration_text h m s f) = Ok td
    /\ Timedelta.to_microseconds td = duration_microseconds h m s f.
Proof.
  intros Hh Hm Hs Hf Hrange.
  rewrite duration_to_fps_digits by assumption.
  destruct (of_microseconds_in_range (duration_microseconds h m s f))
    as [td Htd]; [apply duration_microseconds_nonneg|exact Hrange|].
  exists td. split; [exact Htd|now apply to_microseconds_of_microseconds].
Qed.

(** ** Further records, run through the model *)

(** A timestamp corrupted by a repaired byte is rejected by
    [strptime] and the row is dropped like any other unparsable
    one. *)
Example corrupted_timestamp_dropped :
  process_csv_input
    [sample_with 0 (bytes_of "4/1/11 11:00:00 AM" ++ [xff]); sample_row]
  = (Channels sample_output
       [Warning (Some UnicodeEncodeError)
                (sample_with 0 (bytes_of "4/1/11 11:00:00 AM" ++ [xff]))],
     Ok tt).
Proof. by_evaluation. Qed.

Example duration_string_sample :
  duration_string 100 30 15 (Some 500%Z) = u "100:30:15.500"
  /\ duration_string 1 23 32 None = u "1:23:32".
Proof. by_evaluation. Qed.

(** The sum of ["1:00:00"] and ["2:30:15.500"] prints as 12615.5
    seconds. *)
Example duration_sum_sample :
  (a <- duration_to_fps (u "1:00:00") ;;
   b <- duration_to_fps (u "2:30:15.500") ;;
   t <- Timedelta.add a b ;;
   Ok (Float.str (total_seconds t)))
  = Ok (u "12615.5").
Proof. by_evaluation. Qed.

(** A component count that is too high goes unnoticed: the fourth
    component is ignored. *)
Example duration_extra_component :
  duration_to_fps (u "1:2:3:4") = duration_to_fps (u "1:2:3").
Proof. by_evaluation. Qed.

(** * Further properties of the script *)

(** ** The decoder on a text followed by more bytes *)

Lemma prepend_nil (d : Utf8.decoded) : prepend [] d = d.
Proof. now destruct d. Qed.

Lemma push_prepend (c : N) (t : ustring) (d : Utf8.decoded) :
  Utf8.push c (prepend t d) = prepend (c :: t) d.
Proof. now destruct d. Qed.

Lemma push_error (c : N) (d : Utf8.decoded) (a b : nat) :
  Utf8.push c d = Utf8.DecodeError a b -> d = Utf8.DecodeError a b.
Proof. destruct d; cbn; congruence. Qed.

(** Bytes that decode on their own decode the same way in front of
    any other bytes, and the decoder goes on behind them. *)
Lemma decode_from_app (n : nat) :
  forall (a : bytes) (pos : nat) (ta : ustring) (rest : bytes),
    (length a <= n)%nat ->
    Utf8.decode_from pos a = Utf8.Decoded ta ->
    Utf8.decode_from pos (a ++ rest)
    = prepend ta (Utf8.decode_from (pos + length a) rest).
Proof.
  induction n as [|n IH]; intros a pos ta rest Hlen H.
  { destruct a; [|cbn in Hlen; lia]. cbn in H. injection H as <-.
    cbn [app length]. now rewrite Nat.add_0_r, prepend_nil. }
  destruct a as [|b0 a1].
  { cbn in H. injection H as <-.
    cbn [app length]. now rewrite Nat.add_0_r, prepend_nil. }
  cbn [Utf8.decode_from] in H. cbn [length] in Hlen.
  destruct (Utf8.code_length (Byte.to_N b0)) as [|[|[|[|[|k]]]]] eqn:L;
    try discriminate.
  - apply push_decoded in H as (t' & H & ->).
    cbn [app Utf8.decode_from length]. rewrite L.
    rewrite (IH a1 _ t' rest ltac:(lia) H), push_prepend.
    now replace (pos + 1 + length a1)%nat with (pos + S (length a1))%nat by lia.
  - destruct a1 as [|b1 a2]; [discriminate|].
    destruct (Utf8.is_cont b1) eqn:C1; [|discriminate].
    apply push_decoded in H as (t' & H & ->).
    cbn [app Utf8.decode_from length] in *. rewrite L, C1.
    rewrite (IH a2 _ t' rest ltac:(lia) H), push_prepend.
    now replace (pos + 2 + length a2)%nat
      with (pos + S (S (length a2)))%nat by lia.
  - destruct a1 as [|b1 [|b2 a3]]; try discriminate.
    match type of H with (if ?c then _ else _) = _ => destruct c eqn:C end;
      [discriminate|].
    apply push_decoded in H as (t' & H & ->).
    cbn [app Utf8.decode_from length] in *. rewrite L, C.
    rewrite (IH a3 _ t' rest ltac:(lia) H), push_prepend.
    now replace (pos + 3 + length a3)%nat
      with (pos + S (S (S (length a3))))%nat by lia.
  - destruct a1 as [|b1 [|b2 [|b3 a4]]]; try discriminate.
    match type of H with (if ?c then _ else _) = _ => destruct c eqn:C end;
      [discriminate|].
    apply push_decoded in H as (t' & H & ->).
    cbn [app Utf8.decode_from length] in *. rewrite L, C.
    rewrite (IH a4 _ t' rest ltac:(lia) H), push_prepend.
    now replace (pos + 4 + length a4)%nat
      with (pos + S (S (S (S (length a4)))))%nat by lia.
Qed.

Ltac error_at_start H :=
  injection H as <- _; split; [lia|]; rewrite Nat.sub_diag;
  exists []; reflexivity.

(** The bytes before the span the decoder rejects decode. *)
Lemma decode_from_prefix (n : nat) :
  forall (s : bytes) (pos a b : nat),
    (length s <= n)%nat ->
    Utf8.decode_from pos s = Utf8.DecodeError a b ->
    (pos <= a)%nat
    /\ exists t, Utf8.decode_from pos (firstn (a - pos) s) = Utf8.Decoded t.
Proof.
  induction n as [|n IH]; intros s pos a b Hlen H.
  { destruct s; [discriminate|cbn in Hlen; lia]. }
  destruct s as [|b0 s1]; [discriminate|].
  cbn [Utf8.decode_from] in H. cbn [length] in Hlen.
  destruct (Utf8.code_length (Byte.to_N b0)) as [|[|[|[|[|k]]]]] eqn:L;
    try solve [error_at_start H].
  - apply push_error in H.
    destruct (IH s1 _ a b ltac:(lia) H) as (Hle & t & Ht). split; [lia|].
    replace (a - pos)%nat with (S (a - (pos + 1)))%nat by lia.
    cbn [firstn Utf8.decode_from]. rewrite L, Ht. eexists. reflexivity.
  - destruct s1 as [|b1 s2]; [error_at_start H|].
    destruct (Utf8.is_cont b1) eqn:C1; [|error_at_start H].
    apply push_error in H. cbn [length] in Hlen.
    destruct (IH s2 _ a b ltac:(lia) H) as (Hle & t & Ht). split; [lia|].
    replace (a - pos)%nat with (S (S (a - (pos + 2))))%nat by lia.
    cbn [firstn Utf8.decode_from]. rewrite L, C1, Ht. eexists. reflexivity.
  - destruct s1 as [|b1 [|b2 s3]]; try solve [error_at_start H].
    match type of H with (if ?c then _ else _) = _ => destruct c eqn:C end;
      [error_at_start H|].
    apply push_error in H. cbn [length] in Hlen.
    destruct (IH s3 _ a b ltac:(lia) H) as (Hle & t & Ht). split; [lia|].
    replace (a - pos)%nat with (S (S (S (a - (pos + 3)))))%nat by lia.
    cbn [firstn Utf8.decode_from]. rewrite L, C, Ht. eexists. reflexivity.
  - destruct s1 as [|b1 [|b2 [|b3 s4]]]; try solve [error_at_start H].
    match type of H with (if ?c then _ else _) = _ => destruct c eqn:C end;
      [error_at_start H|].
    apply push_error in H. cbn [length] in Hlen.
    destruct (IH s4 _ a b ltac:(lia) H) as (Hle & t & Ht). split; [lia|].
    replace (a - pos)%nat with (S (S (S (S (a - (pos + 4))))))%nat by lia.
    cbn [firstn Utf8.decode_from]. rewrite L, C, Ht. eexists. reflexivity.
Qed.

Lemma decode_raises (s : bytes) (e : exn) :
  Utf8.decode s = Raise e -> exists a b, e = UnicodeDecodeError a b.
Proof.
  unfold Utf8.decode. destruct (Utf8.decode_from 0 s); [discriminate|].
  intros H. injection H as <-. eauto.
Qed.

Lemma decode_prefix (s : bytes) (a b : nat) :
  Utf8.decode s = Raise (UnicodeDecodeError a b) ->
  exists t, Utf8.decode (firstn a s) = Ok t.
Proof.
  unfold Utf8.decode. intros H.
  destruct (Utf8.decode_from 0 s) as [|a' b'] eqn:E; [discriminate|].
  injection H as -> ->.
  destruct (decode_from_prefix (length s) s 0 a b (le_n _) E) as (_ & t & Ht).
  rewrite Nat.sub_0_r in Ht. rewrite Ht. eauto.
Qed.

(** ** [sanitize_unicode], field by field *)

(** X1.  The fields of a record are repaired one by one and in
    place: the record is sanitized exactly when each of its fields
    is, to the list of the repaired fields, which has as many fields
    as the record. *)
Theorem sanitize_unicode_fieldwise
        (csv_row : list bytes) (texts : list ustring) :
  sanitize_unicode csv_row = Ok texts <->
  Forall2 (fun b t => sanitize_element b = Ok t) csv_row texts.
Proof.
  split.
  - revert texts. induction csv_row as [|b row IH]; intros texts H; cbn in H.
    + injection H as <-. constructor.
    + destruct (sanitize_element b) as [t|] eqn:Eb; [|discriminate].
      destruct (sanitize_unicode row) as [ts|]; [|discriminate].
      injection H as <-. constructor; [exact Eb|now apply IH].
  - induction 1 as [|b t row ts Hb _ IH]; cbn; [reflexivity|].
    now rewrite Hb, IH.
Qed.

Lemma sanitize_unicode_fieldwise_witness :
  Forall2 (fun b t => sanitize_element b = Ok t)
          [[x41; xff]; [xc3; xa9]] [[0x41; REPLACEMENT]; [0xE9]].
Proof.
  apply (sanitize_unicode_fieldwise
           [[x41; xff]; [xc3; xa9]] [[0x41; REPLACEMENT]; [0xE9]]).
  vm_compute. reflexivity.
Defined.

Lemma firstn_length_app {A} (a b : list A) : firstn (length a) (a ++ b) = a.
Proof. induction a as [|x a IH]; cbn; [now destruct b|now rewrite IH]. Qed.

Lemma skipn_length_app {A} (a b : list A) : skipn (length a) (a ++ b) = b.
Proof. induction a as [|x a IH]; cbn; [reflexivity|exact IH]. Qed.

(** X2.  One byte that cannot start a sequence, anywhere in a field
    that is valid otherwise, is replaced by one replacement character
    and the text on both sides of it is kept. *)
Theorem sanitize_element_one_invalid_byte
        (a b : bytes) (x : byte) (ta tb : ustring) :
  Utf8.decode a = Ok ta ->
  Utf8.code_length (Byte.to_N x) = 0%nat ->
  Utf8.decode b = Ok tb ->
  sanitize_element (a ++ x :: b) = Ok (ta ++ [REPLACEMENT] ++ tb).
Proof.
  intros Ha Hx Hb. unfold sanitize_element.
  assert (Utf8.decode (a ++ x :: b)
          = Raise (UnicodeDecodeError (length a) (length a + 1))) as E.
  { unfold Utf8.decode in *.
    destruct (Utf8.decode_from 0 a) as [ta'|] eqn:Ea; [|discriminate].
    rewrite (decode_from_app (length a) a 0 ta' _ (le_n _) Ea).
    cbn [Utf8.decode_from]. rewrite Hx. reflexivity. }
  rewrite E, firstn_length_app, Ha.
  replace (length a + 1)%nat with (length (a ++ [x])) by (rewrite length_app; reflexivity).
  replace (a ++ x :: b) with ((a ++ [x]) ++ b) by (now rewrite <- app_assoc).
  rewrite skipn_length_app, Hb. reflexivity.
Qed.

Lemma sanitize_element_one_invalid_byte_witness :
  sanitize_element ([xc3; xa9] ++ xff :: [x41])
  = Ok ([0xE9] ++ [REPLACEMENT] ++ [0x41]).
Proof.
  apply (sanitize_element_one_invalid_byte [xc3; xa9] [x41] xff [0xE9] [0x41]);
    vm_compute; reflexivity.
Defined.

(** X3.  The repair of a field fails in one way only.  When the field
    does not decode, the bytes before the rejected span always decode;
    the field is repaired when the bytes after the span decode, and
    otherwise the decoding error of those bytes, with positions
    counted from the end of the first span, leaves the sanitizer. *)
Theorem sanitize_element_outcomes (s : bytes) (start stop : nat) :
  Utf8.decode s = Raise (UnicodeDecodeError start stop) ->
  exists head,
    Utf8.decode (firstn start s) = Ok head
    /\ (forall tail, Utf8.decode (skipn stop s) = Ok tail ->
                     sanitize_element s = Ok (head ++ [REPLACEMENT] ++ tail))
    /\ (forall e, Utf8.decode (skipn stop s) = Raise e ->
                  sanitize_element s = Raise e
                  /\ exists a b, e = UnicodeDecodeError a b).
Proof.
  intros H. destruct (decode_prefix _ _ _ H) as [head Hh].
  exists head. split; [exact Hh|]. unfold sanitize_element. rewrite H, Hh.
  split.
  - intros tail Ht. now rewrite Ht.
  - intros e He. rewrite He. split; [reflexivity|].
    now apply decode_raises in He.
Qed.

Lemma sanitize_element_outcomes_witness :
  exists head,
    Utf8.decode (firstn 1 [x41; xff; x42; xff]) = Ok head
    /\ (forall tail, Utf8.decode (skipn 2 [x41; xff; x42; xff]) = Ok tail ->
                     sanitize_element [x41; xff; x42; xff]
                     = Ok (head ++ [REPLACEMENT] ++ tail))
    /\ (forall e, Utf8.decode (skipn 2 [x41; xff; x42; xff]) = Raise e ->
                  sanitize_element [x41; xff; x42; xff] = Raise e
                  /\ exists a b, e = UnicodeDecodeError a b).
Proof.
  apply (sanitize_element_outcomes [x41; xff; x42; xff] 1 2).
  vm_compute. reflexivity.
Defined.

(** ** [iso_est_date] *)

(** X4.  [iso_est_date] never lets an exception through: it returns
    either a non-empty timestamp and no error, or no timestamp and an
    error of the [ValueError] family, which is all [strptime] can
    raise. *)
Theorem iso_est_date_outcomes (pt_date_string : ustring) :
  (exists c s, iso_est_date pt_date_string = Ok (Some (c :: s), None))
  \/ (exists e, is_ValueError e = true
                /\ iso_est_date pt_date_string = Ok (None, Some e)).
Proof.
  destruct (Datetime.strptime pt_date_string) as [dt|e] eqn:E.
  - left. now apply (iso_est_date_success _ dt).
  - right. exists e. split.
    + now apply (strptime_raises pt_date_string).
    + now apply iso_est_date_failure.
Qed.

Lemma strptime_non_ascii (ts : ustring) :
  existsb (fun c => 128 <=? c) ts = true ->
  Datetime.strptime ts = Raise UnicodeEncodeError.
Proof. intros H. unfold Datetime.strptime. now rewrite H. Qed.

Lemma repaired_field_non_ascii (f : bytes) (t : ustring) (a b : nat) :
  Utf8.decode f = Raise (UnicodeDecodeError a b) ->
  sanitize_element f = Ok t ->
  existsb (fun c => 128 <=? c) t = true.
Proof.
  intros Hd Hs. unfold sanitize_element in Hs. rewrite Hd in Hs.
  destruct (Utf8.decode (firstn a f)) as [head|]; [|discriminate].
  destruct (Utf8.decode (skipn b f)) as [tail|]; [|discriminate].
  cbn [rbind] in Hs. injection Hs as <-.
  apply existsb_exists. exists REPLACEMENT. split; [|reflexivity].
  apply in_or_app. right. left. reflexivity.
Qed.

(** X5.  A record whose first field had to be repaired is never
    printed.  When all its fields can be repaired it is dropped: the
    replacement character keeps the first field from being the header
    literal and from being a timestamp, so the record gives no output
    line and one diagnostic, and the run goes on.  When one of its
    fields cannot be repaired the run ends with that field's
    exception. *)
Theorem repaired_timestamp_row_dropped
        (f0 : bytes) (fields : list bytes) (a b : nat)
        (rest : list (list bytes)) (w : channels) :
  Utf8.decode f0 = Raise (UnicodeDecodeError a b) ->
  process_rows ((f0 :: fields) :: rest) w
  = match sanitize_unicode (f0 :: fields) with
    | Ok _ =>
      process_rows rest
        (Channels (stdout w)
                  (stderr w
                   ++ [Warning (Some UnicodeEncodeError) (f0 :: fields)]))
    | Raise e => (w, Raise e)
    end.
Proof.
  intros Hd.
  destruct (sanitize_unicode (f0 :: fields)) as [u_csv_row|e] eqn:Hs.
  2:{ rewrite process_rows_cons. unfold process_row, iobind, lift.
      now rewrite Hs. }
  pose proof Hs as Hs'. cbn [sanitize_unicode] in Hs'.
  destruct (sanitize_element f0) as [t0|] eqn:E0; [|discriminate].
  destruct (sanitize_unicode fields) as [ts|]; [|discriminate].
  cbn [rbind] in Hs'. injection Hs' as <-.
  pose proof (repaired_field_non_ascii _ _ _ _ Hd E0) as Hna.
  assert (t0 <> u "Timestamp") as Hne.
  { intros ->. vm_compute in Hna. discriminate. }
  rewrite process_rows_cons.
  rewrite (process_row_data _ _ t0 _ Hs eq_refl Hne).
  unfold process_data_row, iobind, lift.
  rewrite (index_nth_error (t0 :: ts) 0 t0 eq_refl).
  rewrite (iso_est_date_failure _ _ (strptime_non_ascii _ Hna)).
  reflexivity.
Qed.

Lemma repaired_timestamp_row_dropped_witness :
  process_rows
    (sample_with 0 (bytes_of "4/1/11 11:00:00 AM" ++ [xff]) :: [sample_row])
    (Channels [] [])
  = process_rows [sample_row]
      (Channels []
         [Warning (Some UnicodeEncodeError)
                  (sample_with 0 (bytes_of "4/1/11 11:00:00 AM" ++ [xff]))])
  /\ process_rows
       (((bytes_of "4/1/11 11:00:00 AM" ++ [xff])
           :: firstn 6 (skipn 1 sample_row) ++ [[xff; x41; xff]])
          :: [sample_row])
       (Channels [] [])
     = (Channels [] [], Raise (UnicodeDecodeError 1 2)).
Proof.
  split.
  - apply (repaired_timestamp_row_dropped
             (bytes_of "4/1/11 11:00:00 AM" ++ [xff]) (skipn 1 sample_row)
             18 19 [sample_row] (Channels [] [])).
    vm_compute. reflexivity.
  - apply (repaired_timestamp_row_dropped
             (bytes_of "4/1/11 11:00:00 AM" ++ [xff])
             (firstn 6 (skipn 1 sample_row) ++ [[xff; x41; xff]])
             18 19 [sample_row] (Channels [] [])).
    vm_compute. reflexivity.
Defined.

(** ** [duration_to_fps], beyond well-formed input *)

Lemma split_length (sep : N) (s : ustring) :
  length (split sep s) = S (count_occ N.eq_dec s sep).
Proof.
  induction s as [|c s IH]; [reflexivity|].
  cbn [split]. destruct (c =? sep) eqn:E.
  - apply N.eqb_eq in E. subst c.
    rewrite count_occ_cons_eq by reflexivity. cbn [length]. now rewrite IH.
  - apply N.eqb_neq in E. rewrite count_occ_cons_neq by assumption.
    destruct (split sep s); [discriminate|exact IH].
Qed.

(** X6.  A duration with fewer than two colons has no third
    component: whatever else it holds, the parser raises an indexing
    error, which nothing catches. *)
Theorem duration_to_fps_missing_component (duration_string : ustring) :
  (count_occ N.eq_dec duration_string (chr ":") < 2)%nat ->
  duration_to_fps duration_string = Raise IndexError.
Proof.
  intros H. unfold duration_to_fps, index.
  replace (nth_error (split (chr ":") duration_string) 2) with (@None ustring);
    [reflexivity|].
  symmetry. apply nth_error_None. rewrite split_length. lia.
Qed.

Lemma duration_to_fps_missing_component_witness :
  duration_to_fps (u "83:32") = Raise IndexError.
Proof.
  apply (duration_to_fps_missing_component (u "83:32")).
  vm_compute. lia.
Defined.

(** X7.  Only the first three components count: a duration with a
    fourth component, and anything behind it, is parsed as if that
    tail were not there. *)
Theorem duration_to_fps_ignores_tail (a b c tail : ustring) :
  no_colon a -> no_colon b -> no_colon c ->
  duration_to_fps (a ++ chr ":" :: b ++ chr ":" :: c ++ chr ":" :: tail)
  = duration_to_fps (a ++ chr ":" :: b ++ chr ":" :: c).
Proof.
  intros Ha Hb Hc. unfold duration_to_fps.
  rewrite !split_app_sep by assumption.
  rewrite (split_without_sep (chr ":") c) by assumption.
  reflexivity.
Qed.

Lemma duration_to_fps_ignores_tail_witness :
  duration_to_fps
    (u "1" ++ chr ":" :: u "02" ++ chr ":" :: u "03.5" ++ chr ":" :: u "zz:9")
  = duration_to_fps (u "1" ++ chr ":" :: u "02" ++ chr ":" :: u "03.5").
Proof.
  apply (duration_to_fps_ignores_tail (u "1") (u "02") (u "03.5") (u "zz:9"));
    vm_compute; reflexivity.
Defined.

(** X8.  Components of any number of digits are read as plain
    integers.  The digits behind the point count milliseconds
    whatever their number (a fraction written [.5] is 5 ms), minutes
    and seconds are not limited to 59; the result is the exact sum
    when it is in the range of [timedelta] and an overflow error
    when it is not. *)
Theorem duration_to_fps_any_digits (h m s : ustring) (f : option ustring) :
  digit_string h -> digit_string m -> digit_string s ->
  match f with Some x => digit_string x | None => True end ->
  ((duration_microseconds h m s f / Timedelta.us_per_day
    <= Timedelta.max_days)%Z ->
   exists td,
     duration_to_fps (duration_text h m s f) = Ok td
     /\ Timedelta.to_microseconds td = duration_microseconds h m s f)
  /\ ((Timedelta.max_days
       < duration_microseconds h m s f / Timedelta.us_per_day)%Z ->
      duration_to_fps (duration_text h m s f) = Raise OverflowError).
Proof.
  intros Hh Hm Hs Hf. split; intros Hr.
  - now apply duration_to_fps_digits_exact.
  - now apply duration_to_fps_overflow.
Qed.

Lemma duration_to_fps_any_digits_witness :
  (exists td,
      duration_to_fps (u "0:75:0090.5") = Ok td
      /\ Timedelta.to_microseconds td = 4590005000%Z)
  /\ duration_to_fps (u "99999999999:0:0") = Raise OverflowError.
Proof.
  split.
  - apply (duration_to_fps_any_digits (u "0") (u "75") (u "0090") (Some (u "5")));
      try (split; [discriminate|reflexivity]).
    vm_compute. discriminate.
  - apply (duration_to_fps_any_digits (u "99999999999") (u "0") (u "0") None);
      try (split; [discriminate|reflexivity]); try exact I.
    vm_compute. reflexivity.
Defined.

Lemma lstrip_head (c : N) (s : ustring) :
  is_space c = false -> lstrip (c :: s) = c :: s.
Proof. intros H. cbn. now rewrite H. Qed.

Lemma py_int_negative (s : ustring) :
  digit_string s -> py_int (chr "-" :: s) = Ok (- digits_value 0 s)%Z.
Proof.
  intros [Hne H]. unfold py_int.
  assert (strip (chr "-" :: s) = chr "-" :: s) as E.
  { unfold strip. rewrite lstrip_head by reflexivity.
    cbn [rev]. destruct (rev s) as [|d r] eqn:Er.
    - apply (f_equal (@rev N)) in Er. rewrite rev_involutive in Er. contradiction.
    - cbn [app]. rewrite lstrip_head.
      + rewrite app_comm_cons, <- Er, rev_app_distr, rev_involutive. reflexivity.
      + apply digit_not_space. rewrite forallb_forall in H. apply H.
        apply in_rev. rewrite Er. left. reflexivity. }
  rewrite E. change (chr "-" =? 45) with true. cbv beta iota.
  destruct s as [|d ds]; [congruence|]. rewrite H. f_equal; lia.
Qed.

(** X9.  A minus sign in front of the hours is not rejected: the
    hours count negative, and the result is the (possibly negative)
    elapsed time they give with the minutes and seconds. *)
Theorem duration_to_fps_negative_hours (h m s : ustring) :
  digit_string h -> digit_string m -> digit_string s ->
  duration_to_fps (chr "-" :: duration_text h m s None)
  = Timedelta.of_microseconds
      ((- digits_value 0 h * 3600 + digits_value 0 m * 60
        + digits_value 0 s) * 1000000)%Z.
Proof.
  intros Hh Hm Hs.
  assert (is_digit (chr ":") = false) as Hc by reflexivity.
  assert (is_digit (chr ".") = false) as Hd by reflexivity.
  unfold duration_to_fps, duration_text. rewrite app_nil_r.
  rewrite app_comm_cons.
  rewrite split_app_sep.
  2:{ cbn [forallb]. apply andb_true_iff. split; [reflexivity|].
      apply digits_without; [exact Hc|apply Hh]. }
  rewrite split_app_sep by (apply digits_without; [exact Hc|apply Hm]).
  rewrite (split_without_sep (chr ":"))
    by (apply digits_without; [exact Hc|apply Hs]).
  cbv beta iota delta [index nth_error rbind].
  rewrite split_without_sep by (apply digits_without; [exact Hd|apply Hs]).
  cbv beta iota delta [length Nat.eqb index nth_error rbind].
  rewrite py_int_negative by assumption.
  rewrite !py_int_digits by assumption.
  unfold Timedelta.new. f_equal. lia.
Qed.

Lemma duration_to_fps_negative_hours_witness :
  duration_to_fps (chr "-" :: duration_text (u "1") (u "30") (u "00") None)
  = Timedelta.of_microseconds
      ((- digits_value 0 (u "1") * 3600 + digits_value 0 (u "30") * 60
        + digits_value 0 (u "00")) * 1000000)%Z.
Proof.
  apply (duration_to_fps_negative_hours (u "1") (u "30") (u "00"));
    split; try discriminate; reflexivity.
Defined.

(** ** The postal code *)

(** X10.  The postal code is formatted exactly when it is ASCII text:
    then it is padded on the left with zeros to five characters, kept
    as it is when it has five or more, and never shortened; with any
    character outside ASCII the formatting raises. *)
Theorem format_zip_outcomes (x : ustring) :
  (is_ascii_text x ->
   format_zip x = Ok (repeat (chr "0") (5 - length x) ++ x)
   /\ length (repeat (chr "0") (5 - length x) ++ x) = Nat.max 5 (length x))
  /\ (~ is_ascii_text x -> format_zip x = Raise UnicodeEncodeError).
Proof.
  split.
  - intros H. split; [now apply format_zip_ascii|].
    rewrite length_app, repeat_length. lia.
  - intros H. unfold format_zip.
    destruct (existsb _ _) eqn:E; [reflexivity|].
    exfalso. apply H. unfold is_ascii_text. apply Forall_forall. intros c Hc.
    assert (existsb (fun c => 128 <=? c) (repeat (chr "0") (5 - length x) ++ x)
            = true -> False) as Hn by (rewrite E; discriminate).
    destruct (128 <=? c) eqn:Ec; [|now apply N.leb_gt in Ec].
    exfalso. apply Hn. apply existsb_exists. exists c. split; [|exact Ec].
    apply in_or_app. now right.
Qed.

Lemma format_zip_outcomes_witness :
  (format_zip (u "123") = Ok (repeat (chr "0") (5 - length (u "123")) ++ u "123")
   /\ length (repeat (chr "0") (5 - length (u "123")) ++ u "123")
      = Nat.max 5 (length (u "123")))
  /\ format_zip [0x31; REPLACEMENT] = Raise UnicodeEncodeError.
Proof.
  split.
  - apply (format_zip_outcomes (u "123")). repeat constructor.
  - apply (format_zip_outcomes [0x31; REPLACEMENT]).
    intros H. inversion H as [|? ? _ H']. inversion H' as [|? ? Hc _].
    vm_compute in Hc. discriminate.
Defined.

(** ** The loop body on a data row *)



(** X12.  An exception of the duration parser on either duration
    field of a record that got that far leaves the loop: the run
    ends there with the same exception and nothing is written for
    the record or for those after it. *)
Theorem duration_exception_ends_run
        (csv_row : list bytes) (f0 f1 f2 f3 f4 : ustring)
        (more : list ustring) (dt : Datetime.t) (zip5 : ustring)
        (rest : list (list bytes)) (w : channels) :
  sanitize_unicode csv_row = Ok (f0 :: f1 :: f2 :: f3 :: f4 :: more) ->
  f0 <> u "Timestamp" ->
  Datetime.strptime f0 = Ok dt ->
  format_zip f2 = Ok zip5 ->
  (forall e, duration_to_fps f4 = Raise e ->
             process_rows (csv_row :: rest) w = (w, Raise e))
  /\ (forall d1 f5 more' e,
         more = f5 :: more' ->
         duration_to_fps f4 = Ok d1 ->
         duration_to_fps f5 = Raise e ->
         process_rows (csv_row :: rest) w = (w, Raise e)).
Proof.
  intros Hs Hne Hdt Hz.
  destruct (iso_est_date_success _ _ Hdt) as (c & s & Hiso).
  split.
  - intros e He. rewrite process_rows_cons.
    rewrite (process_row_data _ _ f0 _ Hs eq_refl Hne).
    unfold process_data_row. io_step. rewrite Hiso.
    cbv beta iota delta [is_falsy]. rewrite Hz, He. reflexivity.
  - intros d1 f5 more' e -> H1 He. rewrite process_rows_cons.
    rewrite (process_row_data _ _ f0 _ Hs eq_refl Hne).
    unfold process_data_row. io_step. rewrite Hiso.
    cbv beta iota delta [is_falsy]. rewrite Hz, H1, He. reflexivity.
Qed.

Lemma duration_exception_ends_run_witness :
  (forall e, duration_to_fps (u "1:2x:32") = Raise e ->
             process_rows (sample_with 4 (bytes_of "1:2x:32") :: [sample_row])
                          (Channels [] [])
             = (Channels [] [], Raise e))
  /\ (forall d1 f5 more' e,
         map (map Byte.to_N) (skipn 5 sample_row) = f5 :: more' ->
         duration_to_fps (u "1:2x:32") = Ok d1 ->
         duration_to_fps f5 = Raise e ->
         process_rows (sample_with 4 (bytes_of "1:2x:32") :: [sample_row])
                      (Channels [] [])
         = (Channels [] [], Raise e)).
Proof.
  apply (duration_exception_ends_run
           (sample_with 4 (bytes_of "1:2x:32"))
           (u "4/1/11 11:00:00 AM") (u "123 4th St, Anywhere, AA") (u "94121")
           (u "Monkey Alberto") (u "1:2x:32")
           (map (map Byte.to_N) (skipn 5 sample_row))
           (Datetime.make 2011 4 1 11 0 0) (u "94121")
           [sample_row] (Channels [] []));
    vm_compute; try reflexivity. discriminate.
Defined.

(** ** The loop over the records *)

(** X13.  Input read in two parts: the second part is processed
    from the channels the first part leaves, unless the first part
    ended with an exception, which ends the run with the second part
    unread. *)
Theorem process_rows_concat (pre rest : list (list bytes)) (w : channels) :
  process_rows (pre ++ rest) w =
  match process_rows pre w with
  | (w', Ok _) => process_rows rest w'
  | (w', Raise e) => (w', Raise e)
  end.
Proof.
  destruct (process_rows pre w) as [w' [[]|e]] eqn:E.
  - now apply process_rows_app.
  - now apply process_rows_app_raise.
Qed.

(** X14.  The loop keeps no state from one record to the next: when
    a run ends normally, what it wrote to each channel is what was
    there before followed by what each record writes when processed
    on its own, in the order of the input. *)
Theorem output_is_concatenation
        (reader : list (list bytes)) (out : bytes) (err : list diagnostic)
        (w : channels) :
  process_rows reader (Channels out err) = (w, Ok tt) ->
  stdout w = out ++ concat (map row_stdout reader)
  /\ stderr w = err ++ concat (map row_stderr reader).
Proof.
  revert out err. induction reader as [|r rows IH]; intros out err H.
  - cbn in H. injection H as <-. cbn. now rewrite !app_nil_r.
  - rewrite process_rows_cons, (framed_process_row r out err) in H.
    cbn [map concat]. unfold row_stdout at 1, row_stderr at 1.
    destruct (process_row r (Channels [] [])) as [[o1 e1] [[]|e]];
      [|discriminate].
    cbn [fst stdout stderr] in *.
    destruct (IH _ _ H) as [Ho He]. rewrite Ho, He.
    now rewrite !app_assoc.
Qed.

Lemma output_is_concatenation_witness :
  stdout (fst (process_csv_input
                 [header_row; sample_with 0 (bytes_of "not-a-date"); sample_row]))
  = [] ++ concat (map row_stdout
                      [header_row; sample_with 0 (bytes_of "not-a-date");
                       sample_row])
  /\ stderr (fst (process_csv_input
                    [header_row; sample_with 0 (bytes_of "not-a-date");
                     sample_row]))
     = [] ++ concat (map row_stderr
                         [header_row; sample_with 0 (bytes_of "not-a-date");
                          sample_row]).
Proof.
  apply (output_is_concatenation
           [header_row; sample_with 0 (bytes_of "not-a-date"); sample_row]
           [] []).
  vm_compute. reflexivity.
Defined.

(** ** The header row, byte for byte *)

Lemma encode_app (a b : ustring) :
  forallb (fun c => negb (high_surrogate c)) a = true ->
  Utf8.encode (a ++ b) = Utf8.encode a ++ Utf8.encode b.
Proof.
  induction a as [|c a IH]; intros H; [reflexivity|].
  cbn [forallb] in H. apply andb_prop in H as [Hc Ha].
  apply negb_true_iff in Hc.
  rewrite <- app_comm_cons, !(encode_cons _ _ Hc), (IH Ha).
  now rewrite app_assoc.
Qed.

Lemma encode_join (texts : list ustring) :
  Forall (fun t => forallb (fun c => negb (high_surrogate c)) t = true) texts ->
  Utf8.encode (join texts) = bytes_join (map Utf8.encode texts).
Proof.
  induction 1 as [|t ts Ht Hts IH]; [reflexivity|].
  destruct ts as [|t2 ts]; [reflexivity|].
  change (join (t :: t2 :: ts)) with (t ++ chr "," :: join (t2 :: ts)).
  change (bytes_join (map Utf8.encode (t :: t2 :: ts)))
    with (Utf8.encode t ++ x2c :: bytes_join (map Utf8.encode (t2 :: ts))).
  rewrite (encode_app _ _ Ht), (encode_cons (chr ",")) by reflexivity.
  now rewrite IH.
Qed.

(** X15.  A header record of valid UTF-8 (lone high surrogates
    apart) is written out byte for byte: its raw fields joined by
    commas and a newline.  No field is quoted, padded or changed in
    case, so a header field that holds a comma comes out as two. *)
Theorem header_row_echoed
        (csv_row : list bytes) (texts : list ustring) (w : channels) :
  Forall2 (fun b t => Utf8.decode b = Ok t) csv_row texts ->
  Forall (fun t => forallb (fun c => negb (high_surrogate c)) t = true) texts ->
  nth_error texts 0 = Some (u "Timestamp") ->
  process_row csv_row w
  = (Channels (stdout w ++ bytes_join csv_row ++ [NEWLINE]) (stderr w), Ok tt).
Proof.
  intros Hd Hns H0.
  rewrite (process_row_header _ _ _ (sanitize_unicode_valid _ _ Hd) H0).
  rewrite (encode_join _ Hns).
  replace (map Utf8.encode texts) with csv_row; [reflexivity|].
  clear H0. induction Hd as [|b t row ts Hb _ IH]; [reflexivity|].
  inversion Hns as [|? ? Ht Hts]; subst. cbn [map].
  now rewrite (encode_decode _ _ Hb Ht), <- (IH Hts).
Qed.

Lemma header_row_echoed_witness :
  process_row [bytes_of "Timestamp"; [x41; x2c; xc3; xa9]] (Channels [] [])
  = (Channels ([] ++ bytes_join [bytes_of "Timestamp"; [x41; x2c; xc3; xa9]]
                  ++ [NEWLINE]) [],
     Ok tt).
Proof.
  apply (header_row_echoed
           [bytes_of "Timestamp"; [x41; x2c; xc3; xa9]]
           [u "Timestamp"; [0x41; 0x2C; 0xE9]] (Channels [] [])).
  - repeat constructor.
  - repeat constructor.
  - reflexivity.
Defined.

(** ** Well-formed timestamps *)

Lemma below_cases (P : Z -> Prop) (bound : nat) :
  (forall n, (n < bound)%nat -> P (Z.of_nat n)) ->
  forall v, (0 <= v < Z.of_nat bound)%Z -> P v.
Proof.
  intros H v Hv. rewrite <- (Z2Nat.id v) by lia. apply H. lia.
Qed.

Tactic Notation "cases_below" integer(c) ident(n) tactic(tac) :=
  do c (destruct n as [|n]; [tac|]); exfalso; lia.

Ltac run_case :=
  let Hk := fresh "Hk" in
  intros; first
    [ exfalso; lia
    | match goal with Hk : _ = Some _ |- _ =>
        cbv in Hk |- *; try rewrite Hk; first [reflexivity | exact Hk] end ].

Section Matching.

Context {A : Type}.
Implicit Types (k : ustring -> Re.groups -> option A).

Lemma firstn_prefix (p r : ustring) :
  firstn (length (p ++ r) - length r) (p ++ r) = p.
Proof.
  rewrite length_app, Nat.add_sub. apply firstn_length_app.
Qed.

Lemma run_group (name : N) (r : Re.t) (p rest : ustring) (g : Re.groups) k x :
  accepts (A := A) r p rest ->
  k rest ((name, p) :: g) = Some x ->
  Re.run (Re.Group name r) (p ++ rest) g k = Some x.
Proof.
  intros H Hk. cbn [Re.run]. apply H. now rewrite firstn_prefix.
Qed.

Lemma run_chr (c : N) (rest : ustring) (g : Re.groups) k :
  Re.run (Re.Chr c) (c :: rest) g k = k rest g.
Proof. cbn [Re.run]. now rewrite N.eqb_refl. Qed.

Lemma run_spaces (c : N) (rest : ustring) (g : Re.groups) k :
  is_space c = false ->
  Re.run Re.Spaces (chr " " :: c :: rest) g k = k (c :: rest) g.
Proof. intros H. cbn. now rewrite H. Qed.

Lemma accepts_1_12 (v : Z) (d : N) (rest : ustring) :
  (1 <= v <= 12)%Z -> d = chr "/" \/ d = chr ":" ->
  accepts (A := A) Datetime.re_1_12 (decimal v) (d :: rest).
Proof.
  intros Hv Hd. assert (0 <= v < Z.of_nat 13)%Z as Hb by lia.
  revert Hv rest. revert v Hb.
  apply (below_cases
           (fun v => (1 <= v <= 12)%Z -> forall rest,
                accepts (A := A) Datetime.re_1_12 (decimal v) (d :: rest)) 13).
  intros n Hn. unfold accepts.
  destruct Hd as [-> | ->]; cases_below 13 n run_case.
Qed.

Lemma accepts_d (v : Z) (rest : ustring) :
  (1 <= v <= 31)%Z ->
  accepts (A := A) Datetime.re_d (decimal v) (chr "/" :: rest).
Proof.
  intros Hv. assert (0 <= v < Z.of_nat 32)%Z as Hb by lia.
  revert Hv rest. revert v Hb.
  apply (below_cases
           (fun v => (1 <= v <= 31)%Z -> forall rest,
                accepts (A := A) Datetime.re_d (decimal v) (chr "/" :: rest)) 32).
  intros n Hn. unfold accepts. cases_below 32 n run_case.
Qed.

Lemma accepts_yy (v : Z) (rest : ustring) :
  (0 <= v <= 99)%Z ->
  accepts (A := A) (Re.Cat Datetime.digit Datetime.digit) (zero_pad 2 v)
          (chr " " :: rest).
Proof.
  intros Hv. assert (0 <= v < Z.of_nat 100)%Z as Hb by lia.
  revert Hv rest. revert v Hb.
  apply (below_cases
           (fun v => (0 <= v <= 99)%Z -> forall rest,
                accepts (A := A) (Re.Cat Datetime.digit Datetime.digit) (zero_pad 2 v)
                        (chr " " :: rest)) 100).
  intros n Hn. unfold accepts. cases_below 100 n run_case.
Qed.

Lemma accepts_M (v : Z) (rest : ustring) :
  (0 <= v <= 59)%Z ->
  accepts (A := A) Datetime.re_M (zero_pad 2 v) (chr ":" :: rest).
Proof.
  intros Hv. assert (0 <= v < Z.of_nat 60)%Z as Hb by lia.
  revert Hv rest. revert v Hb.
  apply (below_cases
           (fun v => (0 <= v <= 59)%Z -> forall rest,
                accepts (A := A) Datetime.re_M (zero_pad 2 v) (chr ":" :: rest)) 60).
  intros n Hn. unfold accepts. cases_below 60 n run_case.
Qed.

Lemma accepts_S (v : Z) (rest : ustring) :
  (0 <= v <= 59)%Z ->
  accepts (A := A) Datetime.re_S (zero_pad 2 v) (chr " " :: rest).
Proof.
  intros Hv. assert (0 <= v < Z.of_nat 60)%Z as Hb by lia.
  revert Hv rest. revert v Hb.
  apply (below_cases
           (fun v => (0 <= v <= 59)%Z -> forall rest,
                accepts (A := A) Datetime.re_S (zero_pad 2 v) (chr " " :: rest)) 60).
  intros n Hn. unfold accepts. cases_below 60 n run_case.
Qed.

Lemma accepts_p (pm : bool) :
  accepts (A := A) Datetime.re_p (if pm then u "PM" else u "AM") [].
Proof. unfold accepts. destruct pm; run_case. Qed.

End Matching.

Lemma run_cat {A} (a b : Re.t) (s : ustring) (g : Re.groups)
      (k : ustring -> Re.groups -> option A) :
  Re.run (Re.Cat a b) s g k = Re.run a s g (fun s' g' => Re.run b s' g' k).
Proof. reflexivity. Qed.

Lemma run_spaces_digits {A} (p rest : ustring) (g : Re.groups)
      (k : ustring -> Re.groups -> option A) :
  digit_string p ->
  Re.run Re.Spaces (chr " " :: p ++ rest) g k = k (p ++ rest) g.
Proof.
  intros [Hne Hd]. destruct p as [|c p]; [congruence|].
  cbn [forallb] in Hd. apply andb_prop in Hd as [Hc _].
  apply run_spaces. now apply digit_not_space.
Qed.

Lemma days_in_month_le_31 (y m : Z) : (Calendar.days_in_month y m <= 31)%Z.
Proof.
  unfold Calendar.days_in_month.
  repeat match goal with |- context [if ?b then _ else _] => destruct b end;
    lia.
Qed.

Lemma timestamp_match (month day yy hour minute second : Z) (pm : bool) :
  (1 <= month <= 12)%Z -> (1 <= day <= 31)%Z -> (0 <= yy <= 99)%Z ->
  (1 <= hour <= 12)%Z -> (0 <= minute <= 59)%Z -> (0 <= second <= 59)%Z ->
  Re.match_prefix Datetime.format_regex
                  (timestamp_text month day yy hour minute second pm)
  = Some ([(chr "p", if pm then u "PM" else u "AM");
           (chr "S", zero_pad 2 second); (chr "M", zero_pad 2 minute);
           (chr "I", decimal hour); (chr "y", zero_pad 2 yy);
           (chr "d", decimal day); (chr "m", decimal month)], []).
Proof.
  intros Hm Hd Hy Hh Hmi Hs.
  unfold Re.match_prefix, Datetime.format_regex, timestamp_text.
  cbn [Datetime.cat].
  rewrite run_cat.
  apply run_group; [apply accepts_1_12; [lia|now left]|].
  rewrite run_cat, run_chr, run_cat.
  apply run_group; [apply accepts_d; lia|].
  rewrite run_cat, run_chr, run_cat.
  apply run_group; [apply accepts_yy; lia|].
  rewrite run_cat, run_spaces_digits by apply decimal_digit_string.
  rewrite run_cat.
  apply run_group; [apply accepts_1_12; [lia|now right]|].
  rewrite run_cat, run_chr, run_cat.
  apply run_group; [apply accepts_M; lia|].
  rewrite run_cat, run_chr, run_cat.
  apply run_group; [apply accepts_S; lia|].
  rewrite run_cat.
  replace (Re.run Re.Spaces (chr " " :: (if pm then u "PM" else u "AM")))
    with (fun (g : Re.groups) k =>
            (k (if pm then u "PM" else u "AM") g : option (Re.groups * ustring)))
    by (now destruct pm).
  cbv beta.
  rewrite <- (app_nil_r (if pm then u "PM" else u "AM")) at 1.
  apply run_group; [apply accepts_p|]. reflexivity.
Qed.

Lemma digits_ascii (s : ustring) :
  forallb is_digit s = true -> existsb (fun c => 128 <=? c) s = false.
Proof.
  induction s as [|c s IH]; [reflexivity|].
  cbn [forallb existsb]. intros H. apply andb_prop in H as [Hc Hs].
  rewrite (IH Hs), orb_false_r. unfold is_digit in Hc.
  apply andb_prop in Hc as [_ H2]. apply N.leb_le in H2.
  apply N.leb_gt. lia.
Qed.

Lemma timestamp_text_ascii (month day yy hour minute second : Z) (pm : bool) :
  existsb (fun c => 128 <=? c)
          (timestamp_text month day yy hour minute second pm) = false.
Proof.
  unfold timestamp_text.
  repeat (rewrite existsb_app || (cbn [existsb]; rewrite ?orb_false_iff)).
  repeat split;
    try (apply digits_ascii;
         first [apply decimal_digit_string | apply zero_pad_digit_string]);
    try reflexivity.
  now destruct pm.
Qed.

(** [strptime] reads every well-formed timestamp as it is written. *)
Lemma strptime_well_formed
        (month day yy hour minute second : Z) (pm : bool) :
  (1 <= month <= 12)%Z ->
  (1 <= day <= Calendar.days_in_month (year_of yy) month)%Z ->
  (0 <= yy <= 99)%Z -> (1 <= hour <= 12)%Z ->
  (0 <= minute <= 59)%Z -> (0 <= second <= 59)%Z ->
  Datetime.strptime (timestamp_text month day yy hour minute second pm)
  = Ok (Datetime.make (year_of yy) month day (hour24 hour pm) minute second).
Proof.
  intros Hm Hd Hy Hh Hmi Hs.
  pose proof (days_in_month_le_31 (year_of yy) month) as H31.
  unfold Datetime.strptime.
  rewrite timestamp_text_ascii, timestamp_match by lia.
  set (found := [(chr "p", if pm then u "PM" else u "AM");
                 (chr "S", zero_pad 2 second); (chr "M", zero_pad 2 minute);
                 (chr "I", decimal hour); (chr "y", zero_pad 2 yy);
                 (chr "d", decimal day); (chr "m", decimal month)]).
  change (Re.get (chr "y") found) with (zero_pad 2 yy).
  change (Re.get (chr "m") found) with (decimal month).
  change (Re.get (chr "d") found) with (decimal day).
  change (Re.get (chr "I") found) with (decimal hour).
  change (Re.get (chr "M") found) with (zero_pad 2 minute).
  change (Re.get (chr "S") found) with (zero_pad 2 second).
  change (Re.get (chr "p") found) with (if pm then u "PM" else u "AM").
  rewrite !py_int_digits
    by first [apply decimal_digit_string | apply zero_pad_digit_string].
  rewrite !digits_value_decimal, !digits_value_zero_pad by lia.
  cbn [rbind]. fold (year_of yy).
  replace ((Calendar.days_in_month (year_of yy) month <? day)%Z
           || (59 <? second)%Z) with false.
  2:{ symmetry. apply orb_false_iff. split; apply Z.ltb_ge; lia. }
  unfold hour24. destruct pm.
  - replace (ustring_eqb (map Re.lower (u "PM")) (u "am")) with false
      by (vm_compute; reflexivity).
    replace (ustring_eqb (map Re.lower (u "PM")) (u "pm")) with true
      by (vm_compute; reflexivity).
    destruct (hour =? 12)%Z eqn:E; [apply Z.eqb_eq in E; subst|]; reflexivity.
  - replace (ustring_eqb (map Re.lower (u "AM")) (u "am")) with true
      by (vm_compute; reflexivity).
    reflexivity.
Qed.

(** X17.  Every timestamp written [M/D/YY h:mm:ss AM] or [PM] with a
    day that exists in its month is accepted: [strptime] reads the
    fields as written, a year 00-68 in the 2000s and 69-99 in the
    1900s, 12 AM as hour 0 and 12 PM as hour 12, and [iso_est_date]
    returns the converted timestamp and no error. *)
Theorem well_formed_timestamp_accepted
        (month day yy hour minute second : Z) (pm : bool) :
  (1 <= month <= 12)%Z ->
  (1 <= day <= Calendar.days_in_month (year_of yy) month)%Z ->
  (0 <= yy <= 99)%Z -> (1 <= hour <= 12)%Z ->
  (0 <= minute <= 59)%Z -> (0 <= second <= 59)%Z ->
  let dt := Datetime.make (year_of yy) month day (hour24 hour pm)
                          minute second in
  Datetime.strptime (timestamp_text month day yy hour minute second pm)
  = Ok dt
  /\ iso_est_date (timestamp_text month day yy hour minute second pm)
     = Ok (Some (Datetime.isoformat
                   (Datetime.astimezone_eastern
                      (Datetime.localize_pacific dt))), None).
Proof.
  intros Hm Hd Hy Hh Hmi Hs dt.
  pose proof (strptime_well_formed month day yy hour minute second pm
                                   Hm Hd Hy Hh Hmi Hs) as H.
  split; [exact H|]. unfold iso_est_date. now rewrite H.
Qed.

Lemma well_formed_timestamp_accepted_witness :
  Datetime.strptime (timestamp_text 2 29 12 12 5 9 false)
  = Ok (Datetime.make 2012 2 29 0 5 9)
  /\ iso_est_date (timestamp_text 2 29 12 12 5 9 false)
     = Ok (Some (Datetime.isoformat
                   (Datetime.astimezone_eastern
                      (Datetime.localize_pacific
                         (Datetime.make 2012 2 29 0 5 9)))), None).
Proof.
  apply (well_formed_timestamp_accepted 2 29 12 12 5 9 false);
    vm_compute; split; discriminate.
Defined.

(** ** What reaches the error channel *)

Lemma quiet_lift {A} (r : result A) : quiet (lift r).
Proof. intros w w' r' H. cbv [lift] in H. now injection H as <- _. Qed.

Lemma quiet_utf8_print (row : list ustring) : quiet (utf8_print row).
Proof. intros w w' r H. cbv [utf8_print] in H. now injection H as <- _. Qed.

Lemma quiet_bind {A B} (m : io A) (f : A -> io B) :
  quiet m -> (forall a, quiet (f a)) -> quiet (iobind m f).
Proof.
  intros Hm Hf w w' r H. unfold iobind in H.
  destruct (m w) as [w1 [a|e]] eqn:E.
  - rewrite (Hf a _ _ _ H). exact (Hm _ _ _ E).
  - injection H as <- _. exact (Hm _ _ _ E).
Qed.

Lemma quiet_bind_lift {A B} (r : result A) (f : A -> io B) :
  (forall a, r = Ok a -> quiet (f a)) -> quiet (iobind (lift r) f).
Proof.
  intros H w w' r' E. unfold iobind, lift in E. destruct r as [a|e].
  - exact (H a eq_refl _ _ _ E).
  - now injection E as <- _.
Qed.

(** Past the timestamp, the loop body writes no diagnostic. *)
Lemma quiet_process_data_row
      (csv_row : list bytes) (f0 : ustring) (fields : list ustring)
      (dt : Datetime.t) :
  Datetime.strptime f0 = Ok dt ->
  quiet (process_data_row csv_row (f0 :: fields)).
Proof.
  intros Hdt. destruct (iso_est_date_success _ _ Hdt) as (c & s & Hiso).
  unfold process_data_row.
  apply quiet_bind_lift. intros ts Hts.
  cbv [index nth_error] in Hts. injection Hts as <-.
  apply quiet_bind_lift. intros parsed Hp.
  rewrite Hiso in Hp. injection Hp as <-.
  cbv beta iota delta [is_falsy].
  repeat (apply quiet_bind; [apply quiet_lift|intros ?]).
  apply quiet_utf8_print.
Qed.

(** X18.  Only a timestamp that [strptime] rejects makes the loop
    body write a diagnostic.  With every other record, whether it is
    printed or ends the run with an exception, the error channel
    stays as it is: no record is ever dropped for its durations, its
    postal code or its number of fields. *)
Theorem diagnostic_only_for_timestamp
        (csv_row : list bytes) (w w' : channels) (r : result unit) :
  process_row csv_row w = (w', r) ->
  stderr w' = stderr w
  \/ exists u_csv_row ts e,
      sanitize_unicode csv_row = Ok u_csv_row
      /\ nth_error u_csv_row 0 = Some ts
      /\ ts <> u "Timestamp"
      /\ Datetime.strptime ts = Raise e
      /\ w' = Channels (stdout w) (stderr w ++ [Warning (Some e) csv_row])
      /\ r = Ok tt.
Proof.
  intros H.
  destruct (sanitize_unicode csv_row) as [u_csv_row|e0] eqn:Hs.
  2:{ unfold process_row, iobind, lift in H. rewrite Hs in H.
      injection H as <- _. now left. }
  destruct u_csv_row as [|f0 fields].
  { unfold process_row, iobind, lift in H. rewrite Hs in H. cbn in H.
    injection H as <- _. now left. }
  destruct (ustring_eqb f0 (u "Timestamp")) eqn:Eh.
  { apply ustring_eqb_eq in Eh. subst f0.
    rewrite (process_row_header _ _ _ Hs eq_refl) in H.
    injection H as <- _. now left. }
  apply ustring_eqb_neq in Eh.
  rewrite (process_row_data _ _ f0 _ Hs eq_refl Eh) in H.
  destruct (Datetime.strptime f0) as [dt|e] eqn:Ep.
  - left. exact (quiet_process_data_row _ _ _ _ Ep _ _ _ H).
  - right. unfold process_data_row, iobind, lift in H.
    cbv beta iota delta [index nth_error] in H.
    rewrite (iso_est_date_failure _ _ Ep) in H. cbn in H.
    injection H as <- <-. exists (f0 :: fields), f0, e.
    repeat split; assumption || reflexivity.
Qed.

Lemma diagnostic_only_for_timestamp_witness :
  stderr (Channels [] [Warning (Some (ValueError (NoMatch (u "x")))) [bytes_of "x"]])
  = stderr (Channels [] [])
  \/ exists u_csv_row ts e,
      sanitize_unicode [bytes_of "x"] = Ok u_csv_row
      /\ nth_error u_csv_row 0 = Some ts
      /\ ts <> u "Timestamp"
      /\ Datetime.strptime ts = Raise e
      /\ Channels [] [Warning (Some (ValueError (NoMatch (u "x")))) [bytes_of "x"]]
         = Channels (stdout (Channels [] []))
                    (stderr (Channels [] [])
                     ++ [Warning (Some e) [bytes_of "x"]])
      /\ Ok tt = Ok tt.
Proof.
  apply (diagnostic_only_for_timestamp
           [bytes_of "x"] (Channels [] [])
           (Channels [] [Warning (Some (ValueError (NoMatch (u "x"))))
                                 [bytes_of "x"]])
           (Ok tt)).
  vm_compute. reflexivity.
Defined.

(** X19.  The encoding repair runs on every field before anything
    else is looked at: a field it cannot repair, in any column, the
    seventh (which is otherwise ignored) or one of a header record
    included, ends the run with that field's exception and nothing
    written. *)
Theorem encoding_failure_ends_run
        (pre : list bytes) (f : bytes) (post : list bytes) (e : exn)
        (rest : list (list bytes)) (w : channels) :
  Forall (fun b => exists t, sanitize_element b = Ok t) pre ->
  sanitize_element f = Raise e ->
  process_rows ((pre ++ f :: post) :: rest) w = (w, Raise e).
Proof.
  intros Hpre Hf.
  assert (sanitize_unicode (pre ++ f :: post) = Raise e) as Hs.
  { induction Hpre as [|b pre [t Hb] _ IH]; cbn.
    - now rewrite Hf.
    - now rewrite Hb, IH. }
  rewrite process_rows_cons. unfold process_row, iobind, lift.
  now rewrite Hs.
Qed.

Lemma encoding_failure_ends_run_witness :
  process_rows
    ((firstn 6 header_row ++ [xff; xff] :: skipn 7 header_row) :: [sample_row])
    (Channels [] [])
  = (Channels [] [], Raise (UnicodeDecodeError 0 1)).
Proof.
  apply (encoding_failure_ends_run
           (firstn 6 header_row) [xff; xff] (skipn 7 header_row)
           (UnicodeDecodeError 0 1) [sample_row] (Channels [] [])).
  - repeat constructor; eexists; vm_compute; reflexivity.
  - vm_compute. reflexivity.
Defined.
